(** * Job-Hunt: the aggregation, dedup, relevance-filter and enrichment pipeline

    A shallow embedding of [src/job_automator.py] and the properties of its
    pipeline: source adapters with their recency cutoff, the relevance
    filter, the enrichment loop with incremental persistence, and the
    ranked digest.

    Conventions of the embedding.
    - A Python [str] is a [string]; a character stands for a code point
      below 256, and [lower], [isspace] and [split] act on those code points
      as [str.lower], [str.isspace] and [str.split] do.
    - A Python [set] of ids is a [gset string].
    - An exception is a value [Raise e] of the [result] type; a [try] block
      with [except Exception] is a match on it.
    - The outside world (oracle, record store, mail transport, clock,
      [datetime] parsing) is taken as parameters of the functions. *)

From Stdlib Require Import ZArith NArith Ascii String List.
From stdpp Require Import base option list strings gmap sorting.

(** ** Exceptions and results *)

Inductive exn : Set :=
| IndexError
| KeyError
| ValueError
| TransportError.

Inductive result (A : Type) : Type :=
| Ok (a : A)
| Raise (e : exn).
Arguments Ok {A} a.
Arguments Raise {A} e.

#[global] Instance result_ret : MRet result := fun A a => Ok a.
#[global] Instance result_bind : MBind result := fun A B f m =>
  match m with
  | Ok a => f a
  | Raise e => Raise e
  end.

#[global] Instance result_fmap : FMap result := fun A B f m =>
  match m with
  | Ok a => Ok (f a)
  | Raise e => Raise e
  end.

Definition is_Ok {A} (r : result A) : Prop := ∃ a, r = Ok a.

(** ** Python strings *)

Module PyStr.

(** [str.isspace] on one code point below 256. *)
Definition isspace (c : ascii) : bool :=
  let n := N_of_ascii c in
  ((9 <=? n) && (n <=? 13) || (28 <=? n) && (n <=? 32)
   || (n =? 133) || (n =? 160))%N.

(** [str.lower] on one code point below 256. *)
Definition lower_char (c : ascii) : ascii :=
  let n := N_of_ascii c in
  if ((65 <=? n) && (n <=? 90)
      || (192 <=? n) && (n <=? 222) && negb (n =? 215))%N
  then ascii_of_N (n + 32)
  else c.

(** [s.lower()] *)
Fixpoint lower (s : string) : string :=
  match s with
  | EmptyString => EmptyString
  | String c s' => String (lower_char c) (lower s')
  end.

(** [text.startswith(kw)] *)
Fixpoint startswith (kw text : string) : bool :=
  match kw, text with
  | EmptyString, _ => true
  | String _ _, EmptyString => false
  | String a kw', String b text' =>
      if Ascii.eqb a b then startswith kw' text' else false
  end.

(** [kw in text] *)
Fixpoint contains (kw text : string) : bool :=
  startswith kw text ||
  match text with
  | EmptyString => false
  | String _ text' => contains kw text'
  end.

(** Truth value of a string: [bool(s)]. *)
Definition truthy (s : string) : bool :=
  match s with
  | EmptyString => false
  | String _ _ => true
  end.

(** [s.split()]: the maximal runs of non-whitespace code points.  [cur] is
    the word being read. *)
Fixpoint split_from (cur : string) (s : string) : list string :=
  match s with
  | EmptyString => if truthy cur then [cur] else []
  | String c s' =>
      if isspace c
      then (if truthy cur then cur :: split_from EmptyString s'
            else split_from EmptyString s')
      else split_from (cur +:+ String c EmptyString) s'
  end.

Definition split (s : string) : list string := split_from EmptyString s.

(** [s.replace(old, new)] for a one-character [old]. *)
Fixpoint replace_char (old : ascii) (new : string) (s : string) : string :=
  match s with
  | EmptyString => EmptyString
  | String c s' =>
      if Ascii.eqb c old then new +:+ replace_char old new s'
      else String c (replace_char old new s')
  end.

(** [s.replace(old, new)], leftmost non-overlapping occurrences, for a
    non-empty [old]. *)
Fixpoint replace_from (skip : nat) (old new : string) (s : string) : string :=
  match s with
  | EmptyString => EmptyString
  | String c s' =>
      match skip with
      | S k => replace_from k old new s'
      | O =>
          if truthy old && startswith old s
          then new +:+ replace_from (String.length old - 1) old new s'
          else String c (replace_from 0 old new s')
      end
  end.

Definition replace (old new s : string) : string := replace_from 0 old new s.

(** [s[:n]] *)
Definition slice_to (n : nat) (s : string) : string := String.substring 0 n s.

(** [sep.join(parts)] *)
Definition join (sep : string) (parts : list string) : string :=
  String.concat sep parts.

(** [xs[0]] *)
Definition index0 {A} (xs : list A) : result A :=
  match xs with
  | [] => Raise IndexError
  | x :: _ => Ok x
  end.

(** The words "[kw] is a substring of [text]". *)
Definition is_substring (kw text : string) : Prop :=
  ∃ pre post, text = pre +:+ kw +:+ post.

(** The words "[s] contains at least one whitespace-separated word". *)
Fixpoint has_word (s : string) : bool :=
  match s with
  | EmptyString => false
  | String c s' => negb (isspace c) || has_word s'
  end.

End PyStr.

(** ** Data model *)

(** A posting, as every adapter builds it (the eleven keys of the dict). *)
Record Job : Type := mkJob {
  job_id : string;
  title : string;
  company : string;
  location : string;
  remote : bool;
  description : string;
  apply_link : string;
  posted_at : string;
  salary : string;
  tags : string;
  source : string;
}.

(** The candidate profile; an absent key is [None]
    ([profile.get(key, [])] reads it as the empty list). *)
Record Profile : Type := mkProfile {
  target_roles : option (list string);
  skills : option (list string);
  resume_text : string;
}.

Definition get_list (o : option (list string)) : list string := default [] o.

(** ** The relevance filter, lines 196-232 *)

Module Filter.
Import PyStr.

Definition non_us : list string :=
  ["india";"uk";"germany";"france";"canada";"australia";
   "netherlands";"singapore";"brazil";"spain";"italy";"poland";
   "sweden";"norway";"denmark";"finland";"switzerland";"austria";
   "belgium";"portugal";"mexico";"argentina";"colombia";"philippines";
   "pakistan";"bangladesh";"nigeria";"kenya";"south africa";"egypt";
   "dubai";"uae";"london";"berlin";"paris";"toronto";"sydney";"mumbai";
   "bangalore";"delhi";"amsterdam";"remote - uk";"remote - europe";
   "remote - canada";"remote - australia"].

(** [target_roles = [r.lower() for r in profile.get("target_roles", [])]] *)
Definition lowered_roles (profile : Profile) : list string :=
  lower <$> get_list (target_roles profile).

(** [skills = [s.lower() for s in profile.get("skills", [])[:8]]] *)
Definition lowered_skills (profile : Profile) : list string :=
  lower <$> take 8 (get_list (skills profile)).

(** [text = (job["title"] + " " + job["description"]).lower()] *)
Definition job_text (job : Job) : string :=
  lower (title job +:+ " " +:+ description job).

(** [any(role.split()[0] in text for role in target_roles)]: the generator
    is consumed from the left and [any] stops at the first true element, so
    a role is split and indexed only if no earlier role matched. *)
Fixpoint any_role_in (text : string) (roles : list string) : result bool :=
  match roles with
  | [] => Ok false
  | role :: rest =>
      w ← index0 (split role);
      if contains w text then Ok true else any_role_in text rest
  end.

(** [sum(1 for sk in skills if sk in text)] *)
Definition skill_hits (text : string) (skills : list string) : nat :=
  sum_list ((λ _, 1) <$> filter (λ sk, contains sk text = true) skills).

(** Line 204: [jid in already_seen or jid in seen_ids]. *)
Definition is_duplicate (already_seen seen_ids : gset string) (job : Job) : bool :=
  bool_decide (job_id job ∈ already_seen) || bool_decide (job_id job ∈ seen_ids).

(** Line 206: [REMOTE_ONLY and not job.get("remote")]. *)
Definition remote_rejects (REMOTE_ONLY : bool) (job : Job) : bool :=
  REMOTE_ONLY && negb (remote job).

(** Lines 210-219 for a deny-list [deny]:
    [location and any(kw in location for kw in deny)]. *)
Definition geography_rejects_with (deny : list string) (job : Job) : bool :=
  let location := lower (location job) in
  truthy location && existsb (λ kw, contains kw location) deny.

Definition geography_rejects : Job → bool := geography_rejects_with non_us.

(** Lines 223-227: [role_match or skill_match], with threshold [need] on the
    number of skill hits. *)
Definition relevant_with (need : nat) (profile : Profile) (job : Job) : result bool :=
  let text := job_text job in
  role_match ← any_role_in text (lowered_roles profile);
  let skill_match := (need <=? skill_hits text (lowered_skills profile)) in
  Ok (role_match || skill_match).

Definition relevant : Profile → Job → result bool := relevant_with 1.

(** Lines 247-258, the test of the second copy of the loop:
    [not any(kw in location for kw in us_states)]. *)
Definition us_states : list string :=
  ["alabama";"alaska";"arizona";"arkansas";"california";"colorado";
   "connecticut";"delaware";"florida";"georgia";"hawaii";"idaho";"illinois";
   "indiana";"iowa";"kansas";"kentucky";"louisiana";"maine";"maryland";
   "massachusetts";"michigan";"minnesota";"mississippi";"missouri";"montana";
   "nebraska";"nevada";"new hampshire";"new jersey";"new mexico";"new york";
   "north carolina";"north dakota";"ohio";"oklahoma";"oregon";"pennsylvania";
   "rhode island";"south carolina";"south dakota";"tennessee";"texas";"utah";
   "vermont";"virginia";"washington";"west virginia";"wisconsin";"wyoming";
   "nyc";"sf";"la";"chicago";"boston";"seattle";"austin";"denver";"atlanta";
   "miami";"dallas";"houston";"phoenix";"portland";"remote";"anywhere"].

Definition allow_list_rejects (job : Job) : bool :=
  let location := lower (location job) in
  negb (existsb (λ kw, contains kw location) us_states).

(** The state of the loop: [seen_ids] and [filtered]. *)
Definition loop_state : Type := gset string * list Job.

(** [seen_ids.add(jid); filtered.append(job)] *)
Definition accept (st : loop_state) (job : Job) : loop_state :=
  ({[ job_id job ]} ∪ st.1, st.2 ++ [job]).

(** The two copies of the loop in the source differ in the geography test
    and in the skill threshold only; [geo] and [need] stand for them. *)
Section Loop.
Variable geo : Job → bool.
Variable need : nat.
Variable REMOTE_ONLY : bool.
Variable profile : Profile.
Variable already_seen : gset string.

(** One iteration of [for job in jobs]. *)
Definition loop_body_with (st : loop_state) (job : Job) : result loop_state :=
  if is_duplicate already_seen st.1 job then Ok st
  else if remote_rejects REMOTE_ONLY job then Ok st
  else if geo job then Ok st
  else
    ok ← relevant_with need profile job;
    if (ok : bool) then Ok (accept st job) else Ok st.

Fixpoint for_jobs_with (jobs : list Job) (st : loop_state) : result loop_state :=
  match jobs with
  | [] => Ok st
  | job :: rest => st' ← loop_body_with st job; for_jobs_with rest st'
  end.
End Loop.

(** Lines 203-229. *)
Definition loop_body : bool → Profile → gset string → loop_state → Job → result loop_state :=
  loop_body_with geography_rejects 1.

(** Lines 202-229. *)
Definition for_jobs : bool → Profile → gset string → list Job → loop_state → result loop_state :=
  for_jobs_with geography_rejects 1.

(** [filter_relevant_jobs(jobs, profile, already_seen)], lines 197-232:
    the loop from empty [seen_ids] and [filtered], then
    [return filtered[:20]]. *)
Definition filter_relevant_jobs (REMOTE_ONLY : bool) (jobs : list Job)
    (profile : Profile) (already_seen : gset string) : result (list Job) :=
  st ← for_jobs REMOTE_ONLY profile already_seen jobs (∅, []);
  Ok (take 20 st.2).

(** *** The whole body of the function, with the statements after line 232 *)

(** How a block of statements ends: control falls through its end, or a
    [return] or an exception leaves the function. *)
Inductive outcome (A : Type) : Type :=
| Falls
| Returns (a : A)
| Throws (e : exn).
Arguments Falls {A}.
Arguments Returns {A} a.
Arguments Throws {A} e.

(** [first; second] *)
Definition then_ {A} (first second : outcome A) : outcome A :=
  match first with
  | Falls => second
  | Returns a => Returns a
  | Throws e => Throws e
  end.

(** The value of a call whose body ends as [o]; a body that falls through
    its end returns Python's [None]. *)
Definition call {A} (o : outcome A) : result (option A) :=
  match o with
  | Falls => Ok None
  | Returns a => Ok (Some a)
  | Throws e => Raise e
  end.

(** A copy of the loop followed by [return filtered[:20]]. *)
Definition policy_block (geo : Job → bool) (need : nat) (REMOTE_ONLY : bool)
    (jobs : list Job) (profile : Profile) (already_seen : gset string)
    : outcome (list Job) :=
  match for_jobs_with geo need REMOTE_ONLY profile already_seen jobs (∅, []) with
  | Ok st => Returns (take 20 st.2)
  | Raise e => Throws e
  end.

(** Lines 197-232. *)
Definition deny_list_block : bool → list Job → Profile → gset string → outcome (list Job) :=
  policy_block geography_rejects 1.

(** Lines 233-270: a string expression, then the second copy of the loop
    with the allow-list and a threshold of two skills. *)
Definition allow_list_block : bool → list Job → Profile → gset string → outcome (list Job) :=
  policy_block allow_list_rejects 2.

(** Lines 197-270, with any block [rest] in place of lines 233-270. *)
Definition filter_relevant_jobs_body_with (rest : outcome (list Job))
    (REMOTE_ONLY : bool) (jobs : list Job) (profile : Profile)
    (already_seen : gset string) : outcome (list Job) :=
  then_ (deny_list_block REMOTE_ONLY jobs profile already_seen) rest.

(** Lines 197-270. *)
Definition filter_relevant_jobs_body (REMOTE_ONLY : bool) (jobs : list Job)
    (profile : Profile) (already_seen : gset string) : outcome (list Job) :=
  filter_relevant_jobs_body_with
    (allow_list_block REMOTE_ONLY jobs profile already_seen)
    REMOTE_ONLY jobs profile already_seen.

End Filter.

(** ** The source adapters, lines 81-193 *)

Module Adapters.
Import PyStr.

(** [d.get(key, dflt)] for a key holding a string. *)
Definition get_str (o : option string) (dflt : string) : string := default dflt o.

(** [d.get(key) or dflt] *)
Definition get_or (o : option string) (dflt : string) : string :=
  match o with
  | Some s => if truthy s then s else dflt
  | None => dflt
  end.

(** [d[key]] *)
Definition item {A} (o : option A) : result A :=
  match o with
  | Some a => Ok a
  | None => Raise KeyError
  end.

(** [timedelta(hours=24)], in microseconds. *)
Definition hours_24 : Z := 24 * 3600 * 1000000.

(** [cutoff = datetime.now(timezone.utc) - timedelta(hours=24)] *)
Definition cutoff_of (now : Z) : Z := (now - hours_24)%Z.

(** One element of RemoteOK's JSON array, when it is an object. *)
Record RemoteOKEntry : Type := mkRemoteOK {
  rok_id : option string;
  rok_date : option string;
  rok_position : option string;
  rok_company : option string;
  rok_description : option string;
  rok_url : option string;
  rok_apply_url : option string;
  rok_salary : option string;
  rok_tags : option (list string);
}.

(** One element of Arbeitnow's ["data"] array. *)
Record ArbeitnowEntry : Type := mkArbeitnow {
  arb_slug : option string;
  arb_title : option string;
  arb_company_name : option string;
  arb_location : option string;
  arb_remote : option bool;
  arb_description : option string;
  arb_created_at : option Z;
  arb_tags : option (list string);
}.

(** One element of The Muse's ["results"] array. *)
Record MuseEntry : Type := mkMuse {
  muse_id : option string;
  muse_name : option string;
  muse_company : option (option string);
  muse_locations : option (list string);
  muse_publication_date : option string;
  muse_contents : option string;
  muse_landing_page : option string;
  muse_categories : option (list string);
}.

Definition muse_markup : list string :=
  ["<p>";"</p>";"<br>";"<ul>";"<li>";"</li>";"</ul>";"<strong>";"</strong>";"<em>";"</em>"].

Section Clock.
(** [datetime.fromisoformat(s)] as microseconds since the epoch; [None]
    when the call raises, or when its value is a naive datetime, whose
    comparison with the aware [cutoff] raises. *)
Variable fromisoformat : string → option Z.
(** [datetime.fromtimestamp(t, tz=timezone.utc).isoformat()] for [t]
    microseconds since the epoch. *)
Variable isoformat : Z → string.

(** [datetime.fromisoformat(s.replace("Z", "+00:00"))] *)
Definition parse_date (s : string) : result Z :=
  match fromisoformat (replace_char "Z" "+00:00" s) with
  | Some t => Ok t
  | None => Raise ValueError
  end.

(** The instant a posting's [posted_at] text denotes, read the way the
    adapters read a date. *)
Definition posted_time (job : Job) : option Z :=
  fromisoformat (replace_char "Z" "+00:00" (posted_at job)).

(** Lines 94-111: one element of the array; [None] is [continue]. *)
Definition remoteok_entry (now : Z) (raw : option RemoteOKEntry)
    : result (option Job) :=
  match raw with
  | None => Ok None
  | Some job =>
      if negb (truthy (get_str (rok_id job) "")) then Ok None
      else
        posted ← (if truthy (get_str (rok_date job) "")
                  then parse_date (get_str (rok_date job) "")
                  else Ok now);
        if (posted <? cutoff_of now)%Z then Ok None
        else Ok (Some {|
          job_id := "rok_" +:+ get_str (rok_id job) "";
          title := get_str (rok_position job) "";
          company := get_str (rok_company job) "N/A";
          location := "Remote";
          remote := true;
          description :=
            slice_to 3000 (replace_char "<" " <" (get_or (rok_description job) ""));
          apply_link := get_or (rok_url job) (get_str (rok_apply_url job) "");
          posted_at := get_str (rok_date job) "";
          salary := get_str (rok_salary job) "";
          tags := join ", " (default [] (rok_tags job));
          source := "RemoteOK" |})
  end.

(** Lines 131-147. *)
Definition arbeitnow_entry (now : Z) (job : ArbeitnowEntry) : result (option Job) :=
  let posted := (1000000 * default 0 (arb_created_at job))%Z in
  if (posted <? cutoff_of now)%Z then Ok None
  else
    slug ← item (arb_slug job);
    created ← item (arb_created_at job);
    Ok (Some {|
      job_id := "arb_" +:+ slug;
      title := get_str (arb_title job) "";
      company := get_str (arb_company_name job) "N/A";
      location :=
        get_or (arb_location job)
               (if default false (arb_remote job) then "Remote" else "N/A");
      remote := default false (arb_remote job);
      description :=
        slice_to 3000 (replace_char "<" " <" (get_or (arb_description job) ""));
      apply_link := "https://www.arbeitnow.com/jobs/" +:+ slug;
      posted_at := isoformat (1000000 * created)%Z;
      salary := "";
      tags := join ", " (default [] (arb_tags job));
      source := "Arbeitnow" |}).

(** Lines 173-175: every markup token replaced by a space, in turn. *)
Definition strip_markup (desc : string) : string :=
  foldl (λ d tag, replace tag " " d) desc muse_markup.

(** Lines 167-188. *)
Definition themuse_entry (now : Z) (job : MuseEntry) : result (option Job) :=
  let pub := get_str (muse_publication_date job) "" in
  stale ← (if truthy pub
           then posted ← parse_date pub; Ok (posted <? cutoff_of now)%Z
           else Ok false);
  if (stale : bool) then Ok None
  else
    id ← item (muse_id job);
    let names := default [] (muse_locations job) in
    Ok (Some {|
      job_id := "muse_" +:+ id;
      title := get_str (muse_name job) "";
      company := get_str (default None (muse_company job)) "N/A";
      location := (let l := join ", " names in if truthy l then l else "N/A");
      remote := existsb (λ n, contains "remote" (lower n)) names;
      description := slice_to 3000 (strip_markup (get_or (muse_contents job) ""));
      apply_link := get_str (muse_landing_page job) "";
      posted_at := pub;
      salary := "";
      tags := join ", " (default [] (muse_categories job));
      source := "The Muse" |}).

(** [for job in data: ...; jobs.append(...)] *)
Fixpoint collect {R} (entry : R → result (option Job)) (data : list R)
    : result (list Job) :=
  match data with
  | [] => Ok []
  | raw :: rest =>
      o ← entry raw;
      jobs ← collect entry rest;
      Ok (match o with Some job => job :: jobs | None => jobs end)
  end.

(** [try: ... return jobs; except Exception: return []].  [response] is
    what the request and its decoding gave. *)
Definition guarded {R} (entry : R → result (option Job))
    (response : result (list R)) : list Job :=
  match data ← response; collect entry data with
  | Ok jobs => jobs
  | Raise _ => []
  end.

Definition fetch_remoteok_jobs (now : Z)
    (response : result (list (option RemoteOKEntry))) : list Job :=
  guarded (remoteok_entry now) response.

Definition fetch_arbeitnow_jobs (now : Z)
    (response : result (list ArbeitnowEntry)) : list Job :=
  guarded (arbeitnow_entry now) response.

Definition fetch_themuse_jobs (now : Z)
    (response : result (list MuseEntry)) : list Job :=
  guarded (themuse_entry now) response.

(** Lines 478-482: the three outputs, concatenated. *)
Definition all_jobs (now1 now2 now3 : Z)
    (r1 : result (list (option RemoteOKEntry)))
    (r2 : result (list ArbeitnowEntry))
    (r3 : result (list MuseEntry)) : list Job :=
  fetch_remoteok_jobs now1 r1 ++ fetch_arbeitnow_jobs now2 r2
    ++ fetch_themuse_jobs now3 r3.

(** The words "posted_at is older than 24 hours before [now]". *)
Definition older_than_24h (now : Z) (job : Job) : Prop :=
  ∃ t, posted_time job = Some t ∧ (t < now - hours_24)%Z.
End Clock.

End Adapters.

(** ** Enrichment, persistence and the digest, lines 276-508 *)

Module Pipeline.
Import PyStr.

(** One element of ["resume_improvements"]. *)
Record Improvement : Type := mkImprovement {
  section_name : string;
  current_issue : string;
  improved_version : string;
  impact : string;
}.

(** The oracle's package for one posting, as [analyze_job] returns it.
    An absent ["match_score"] is [None] ([ai.get("match_score", 0)]). *)
Record Ai : Type := mkAi {
  match_score : option Z;
  match_reasons : list string;
  gaps : list string;
  keywords_to_add : list string;
  cover_letter : string;
  resume_improvements : list Improvement;
  application_strategy : string;
  processed_at : string;
}.

(** A cell of a sheet row: text, a number, or the JSON text of a list of
    improvements ([json.dumps]). *)
Inductive Cell : Type :=
| CStr (s : string)
| CInt (z : Z)
| CJson (l : list Improvement).

Definition Row : Type := list Cell.

(** [str(b)] *)
Definition str_bool (b : bool) : string := if b then "True" else "False".

(** Lines 354-374, the row in the order of [SHEET_HEADERS]. *)
Definition make_row (job : Job) (ai : Ai) : Row :=
  [ CStr (job_id job); CStr (title job); CStr (company job);
    CStr (location job); CStr (str_bool (remote job)); CStr (apply_link job);
    CStr (posted_at job); CStr (salary job); CStr (tags job);
    CStr (source job);
    CInt (default 0%Z (match_score ai));
    CStr (join " | " (match_reasons ai));
    CStr (join " | " (gaps ai));
    CStr (join ", " (keywords_to_add ai));
    CStr (cover_letter ai);
    CJson (resume_improvements ai);
    CStr (application_strategy ai);
    CStr "To Apply";
    CStr (processed_at ai) ].

(** The row of an enriched pair. *)
Definition row_of (x : Job * Ai) : Row := make_row x.1 x.2.

(** [key=lambda x: x[1].get("match_score", 0)] *)
Definition score_key (x : Job * Ai) : Z := default 0%Z (match_score x.2).

(** [sorted(xs, key=key, reverse=True)]: Python's sort is stable, also with
    [reverse=True]; insertion from the right keeps an element in front of
    the later elements with the same key. *)
Section Sorted.
Context {A : Type} (key : A → Z).

Fixpoint insert_desc (x : A) (xs : list A) : list A :=
  match xs with
  | [] => [x]
  | y :: ys =>
      if (key x <? key y)%Z then y :: insert_desc x ys else x :: y :: ys
  end.

Fixpoint sorted_reverse (xs : list A) : list A :=
  match xs with
  | [] => []
  | x :: rest => insert_desc x (sorted_reverse rest)
  end.
End Sorted.

(** Lines 390-393. *)
Definition score_color (score : Z) : string :=
  if (80 <=? score)%Z then "#16a34a"
  else if (60 <=? score)%Z then "#d97706"
  else "#dc2626".

(** One card of the digest: the values interpolated into the markup of
    lines 400-422, in their order of appearance. *)
Record Card : Type := mkCard {
  card_title : string;
  card_company : string;
  card_location : string;
  card_remote : bool;
  card_salary : option string;
  card_source : string;
  card_color : string;
  card_score : Z;
  card_reasons : string;
  card_gaps : string;
  card_keywords : string;
  card_strategy : string;
  card_apply_link : string;
}.

(** Lines 397-422 for one pair. *)
Definition render_card (x : Job * Ai) : Card :=
  let '(job, ai) := x in
  let sc := default 0%Z (match_score ai) in
  {| card_title := title job;
     card_company := company job;
     card_location := location job;
     card_remote := remote job;
     card_salary := if truthy (salary job) then Some (salary job) else None;
     card_source := source job;
     card_color := score_color sc;
     card_score := sc;
     card_reasons := join " &bull; " (match_reasons ai);
     card_gaps := join " &bull; " (gaps ai);
     card_keywords := join ", " (keywords_to_add ai);
     card_strategy := application_strategy ai;
     card_apply_link := apply_link job |}.

(** The message handed to the mail transport: the count of the subject
    line, the cards in their order in the body, and the sheet's id. *)
Record Digest : Type := mkDigest {
  digest_count : nat;
  digest_cards : list Card;
  digest_sheet_id : string;
}.

(** Lines 386-441: the report built from a non-empty list of pairs. *)
Definition build_digest (jobs_with_ai : list (Job * Ai)) (sheet_id : string) : Digest :=
  let sorted_jobs := sorted_reverse score_key jobs_with_ai in
  {| digest_count := length sorted_jobs;
     digest_cards := render_card <$> sorted_jobs;
     digest_sheet_id := sheet_id |}.

(** What a run can change outside the process: the rows of the sheet, the
    requests sent to the oracle by [analyze_job], the digests sent. *)
Record World : Type := mkWorld {
  sheet : list Row;
  requests : list Job;
  outbox : list Digest;
}.

Section Run.
(** The oracle behind [analyze_job]: its answer to a request, given the
    requests made before it; [Raise] is a transport or parse failure. *)
Variable oracle : list Job → Job → Profile → result Ai.
(** Whether [sheet.append_row] goes through on the sheet as it is. *)
Variable store_appends : list Row → Row → bool.
(** Whether the mail transport delivers a digest. *)
Variable smtp_delivers : Digest → bool.

(** Lines 276-322. *)
Definition analyze_job (w : World) (job : Job) (profile : Profile)
    : result Ai * World :=
  (oracle (requests w) job profile,
   {| sheet := sheet w; requests := requests w ++ [job]; outbox := outbox w |}).

(** Lines 353-375. *)
Definition write_job_to_sheet (w : World) (job : Job) (ai : Ai)
    : result unit * World :=
  let row := make_row job ai in
  if store_appends (sheet w) row
  then (Ok (), {| sheet := sheet w ++ [row]; requests := requests w;
                  outbox := outbox w |})
  else (Raise TransportError, w).

(** Lines 381-447. *)
Definition send_email_digest (w : World) (jobs_with_ai : list (Job * Ai))
    (sheet_id : string) : result World :=
  match jobs_with_ai with
  | [] => Ok w
  | _ :: _ =>
      let digest := build_digest jobs_with_ai sheet_id in
      if smtp_delivers digest
      then Ok {| sheet := sheet w; requests := requests w;
                 outbox := outbox w ++ [digest] |}
      else Raise TransportError
  end.

(** Lines 493-502: one iteration, the [try] with its [except Exception]. *)
Definition enrich_one (profile : Profile) (acc : World * list (Job * Ai))
    (job : Job) : World * list (Job * Ai) :=
  let '(w, jobs_with_ai) := acc in
  match analyze_job w job profile with
  | (Ok ai, w1) =>
      match write_job_to_sheet w1 job ai with
      | (Ok _, w2) => (w2, jobs_with_ai ++ [(job, ai)])
      | (Raise _, w2) => (w2, jobs_with_ai)
      end
  | (Raise _, w1) => (w1, jobs_with_ai)
  end.

(** Lines 491-502. *)
Definition enrich_all (profile : Profile) (w : World) (relevant_jobs : list Job)
    : World * list (Job * Ai) :=
  foldl (enrich_one profile) (w, []) relevant_jobs.

(** [main] from line 483 on: [profile], [already_seen] and [all_jobs] are
    what lines 460-482 produced, [w] the world at that point. *)
Definition main (REMOTE_ONLY : bool) (sheet_id : string) (profile : Profile)
    (already_seen : gset string) (all_jobs : list Job) (w : World)
    : result World :=
  relevant_jobs ← Filter.filter_relevant_jobs REMOTE_ONLY all_jobs profile already_seen;
  match relevant_jobs with
  | [] => Ok w
  | _ :: _ =>
      let '(w', jobs_with_ai) := enrich_all profile w relevant_jobs in
      send_email_digest w' jobs_with_ai sheet_id
  end.
End Run.

End Pipeline.

(** ** The properties, in the words of the specification *)

Module Spec.
Import PyStr Filter Pipeline.

(** "A posting passes the duplicate, remote-only and geography checks." *)
Definition reaches_relevance_check (REMOTE_ONLY : bool)
    (already_seen seen_ids : gset string) (job : Job) : Prop :=
  is_duplicate already_seen seen_ids job = false ∧
  remote_rejects REMOTE_ONLY job = false ∧
  geography_rejects job = false.

(** "The first word of some lower-cased target role of the profile is a
    substring of the lower-cased concatenation of title and description." *)
Definition role_first_word_in_text (profile : Profile) (job : Job) : Prop :=
  ∃ role w, role ∈ lowered_roles profile ∧ head (split role) = Some w ∧
            is_substring w (job_text job).

(** "At least one of the profile's top-ranked lower-cased skills is a
    substring of that same text." *)
Definition skill_in_text (profile : Profile) (job : Job) : Prop :=
  ∃ sk, sk ∈ lowered_skills profile ∧ is_substring sk (job_text job).

(** "Every target role in the profile is a string containing at least one
    whitespace-separated word." *)
Definition roles_have_words (profile : Profile) : Prop :=
  ∀ role, role ∈ get_list (target_roles profile) → has_word role = true.

(** "The lower-cased location text contains one of the keywords of [deny]
    as a substring." *)
Definition location_matches (deny : list string) (job : Job) : Prop :=
  ∃ kw, kw ∈ deny ∧ is_substring kw (lower (location job)).

(** "A target role without a word is reached before any role whose first
    word is in the text": the roles in front of it all have a first word,
    and none of these words is a substring of the text. *)
Definition wordless_role_reached (profile : Profile) (job : Job) : Prop :=
  ∃ pre role post,
    lowered_roles profile = pre ++ role :: post ∧
    has_word role = false ∧
    ∀ r, r ∈ pre → ∃ w, head (split r) = Some w ∧ ¬ is_substring w (job_text job).

(** "Ordered by descending match score": no pair stands in front of a pair
    with a greater score. *)
Definition by_descending_score (pairs : list (Job * Ai)) : Prop :=
  StronglySorted (λ a b, (score_key b ≤ score_key a)%Z) pairs.

(** "Ties are broken stably": the pairs with any one score stand in [after]
    in the order they have in [before]. *)
Definition ties_keep_order (before after : list (Job * Ai)) : Prop :=
  ∀ score : Z,
    filter (λ x, score_key x = score) after = filter (λ x, score_key x = score) before.

End Spec.

(** ** Sample inputs *)

Module Examples.
Import PyStr Filter Adapters Pipeline.

Definition posting (id title location description : string) : Job :=
  {| job_id := id; title := title; company := "Acme"; location := location;
     remote := true; description := description; apply_link := "";
     posted_at := ""; salary := ""; tags := ""; source := "RemoteOK" |}.

Definition candidate (roles skills : list string) : Profile :=
  {| target_roles := Some roles; skills := Some skills; resume_text := "" |}.

Definition analyst : Job :=
  posting "rok_1" "Data Analyst" "Remote" "Reports and dashboards".

Definition gardener : Job := posting "rok_2" "Gardener" "Remote" "Roses".

Definition nowhere : Job := posting "rok_3" "Data Engineer" "" "Pipelines".

Definition tokyo : Job := posting "rok_4" "Data Engineer" "Tokyo" "Pipelines".

(** A clock that knows two dates: 2 May 2024 and 1 April 2024, 00:00 UTC. *)
Definition sample_fromisoformat (s : string) : option Z :=
  if String.eqb s "2024-05-02T00:00:00+00:00" then Some 1714608000000000%Z
  else if String.eqb s "2024-04-01T00:00:00+00:00" then Some 1711929600000000%Z
  else None.

Definition sample_isoformat (t : Z) : string :=
  if (t =? 1714608000000000)%Z then "2024-05-02T00:00:00+00:00"
  else if (t =? 1711929600000000)%Z then "2024-04-01T00:00:00+00:00"
  else "".

(** 2 May 2024, 12:00 UTC. *)
Definition sample_now : Z := 1714651200000000.

Definition remoteok_raw (id date : string) : option RemoteOKEntry :=
  Some {| rok_id := Some id; rok_date := Some date;
          rok_position := Some "Data Analyst"; rok_company := None;
          rok_description := Some "<p>Reports</p>"; rok_url := None;
          rok_apply_url := None; rok_salary := None; rok_tags := None |}.

Definition arbeitnow_raw (slug : string) (created : Z) : ArbeitnowEntry :=
  {| arb_slug := Some slug; arb_title := Some "Data Engineer";
     arb_company_name := None; arb_location := None; arb_remote := Some true;
     arb_description := None; arb_created_at := Some created; arb_tags := None |}.

Definition muse_raw (id date : string) : MuseEntry :=
  {| muse_id := Some id; muse_name := Some "Data Scientist";
     muse_company := None; muse_locations := Some ["Flexible / Remote"];
     muse_publication_date := Some date; muse_contents := Some "<p>Models</p>";
     muse_landing_page := None; muse_categories := None |}.

Definition sample_remoteok : result (list (option RemoteOKEntry)) :=
  Ok [None; remoteok_raw "101" "2024-05-02T00:00:00Z";
      remoteok_raw "102" "2024-04-01T00:00:00Z"].

Definition sample_arbeitnow : result (list ArbeitnowEntry) :=
  Ok [arbeitnow_raw "dev" 1714608000; arbeitnow_raw "old" 1711929600].

Definition sample_themuse : result (list MuseEntry) :=
  Ok [muse_raw "7" "2024-05-02T00:00:00Z"; muse_raw "8" "2024-04-01T00:00:00Z"].

(** An oracle package with a given score. *)
Definition package (score : Z) : Ai :=
  {| match_score := Some score; match_reasons := ["SQL"]; gaps := [];
     keywords_to_add := []; cover_letter := ""; resume_improvements := [];
     application_strategy := ""; processed_at := "" |}.

(** Three enriched pairs with the scores 40, 90 and 70. *)
Definition three_pairs : list (Job * Ai) :=
  [(analyst, package 40); (nowhere, package 90); (tokyo, package 70)].

(** An oracle that fails on the posting with id [bad] and scores every
    other posting 50. *)
Definition oracle_failing_on (bad : string) (history : list Job) (job : Job)
    (profile : Profile) : result Ai :=
  if String.eqb (job_id job) bad then Raise ValueError else Ok (package 50).

Definition always {A B} (history : A) (x : B) : bool := true.

Definition delivers (d : Digest) : bool := true.

Definition empty_world : World := {| sheet := []; requests := []; outbox := [] |}.

End Examples.


(** ** Words for the further properties *)

Module Terms.
Import PyStr Filter Adapters Pipeline.

(** "A posting passes every test of an iteration but the duplicate test":
    the remote-only test, the geography test [geo] and the relevance test
    with threshold [need]. *)
Definition passes (geo : Job → bool) (need : nat) (REMOTE_ONLY : bool)
    (profile : Profile) (job : Job) : Prop :=
  remote_rejects REMOTE_ONLY job = false ∧ geo job = false ∧
  relevant_with need profile job = Ok true.

(** "The string holds no space." *)
Fixpoint spaceless (s : string) : bool :=
  match s with
  | EmptyString => true
  | String c s' => negb (Ascii.eqb c " ") && spaceless s'
  end.

End Terms.

(** ** The start of [main], lines 462-483 *)

Module Startup.
Import PyStr Filter Adapters Pipeline.

(** A value of a record of [sheet.get_all_records()]: text or a number. *)
Inductive Value : Type :=
| VStr (s : string)
| VNum (z : Z).

#[global] Instance Value_eq_dec : EqDecision Value.
Proof. solve_decision. Defined.

#[global] Instance Value_countable : Countable Value :=
  inj_countable'
    (λ v, match v with VStr s => inl s | VNum z => inr z end)
    (λ x, match x with inl s => VStr s | inr z => VNum z end)
    (λ v, match v with VStr _ | VNum _ => eq_refl end).

(** Truth value of a record value, and of an absent one ([r.get(key)]). *)
Definition truthy_value (o : option Value) : bool :=
  match o with
  | Some (VStr s) => truthy s
  | Some (VNum z) => negb (z =? 0)%Z
  | None => false
  end.

(** Line 338 for one record: [r["job_id"]] when [r.get("job_id")] is true;
    [None] when the record is left out. *)
Definition seen_id_of (r : gmap string Value) : result (option Value) :=
  if truthy_value (r !! "job_id")
  then v ← item (r !! "job_id"); Ok (Some v)
  else Ok None.

(** The set comprehension of line 338. *)
Fixpoint seen_ids_of (rows : list (gmap string Value)) : result (gset Value) :=
  match rows with
  | [] => Ok ∅
  | r :: rest =>
      o ← seen_id_of r;
      ids ← seen_ids_of rest;
      Ok (match o with Some v => {[ v ]} ∪ ids | None => ids end)
  end.

(** Lines 335-340; [records] is what [sheet.get_all_records()] gave. *)
Definition get_already_seen_ids (records : result (list (gmap string Value)))
    : gset Value :=
  match rows ← records; seen_ids_of rows with
  | Ok ids => ids
  | Raise _ => ∅
  end.

(** Line 477: [profile.get("target_roles", ["software engineer"])[0]]. *)
Definition primary_role (profile : Profile) : result string :=
  index0 (default ["software engineer"] (target_roles profile)).

Section Fetch.
Variable fromisoformat : string → option Z.
Variable isoformat : Z → string.
Variable oracle : list Job → Job → Profile → result Ai.
Variable store_appends : list Row → Row → bool.
Variable smtp_delivers : Digest → bool.

(** [main] from line 476 on: the query for Arbeitnow, the three fetches at
    the instants [now1], [now2], [now3] with what the providers answer
    (Arbeitnow's answer depends on the query), then the rest of the run. *)
Definition main_from_fetch (REMOTE_ONLY : bool) (sheet_id : string)
    (profile : Profile) (already_seen : gset string) (now1 now2 now3 : Z)
    (r1 : result (list (option RemoteOKEntry)))
    (r2 : string → result (list ArbeitnowEntry))
    (r3 : result (list MuseEntry)) (w : World) : result World :=
  role ← primary_role profile;
  main oracle store_appends smtp_delivers REMOTE_ONLY sheet_id profile already_seen
       (all_jobs fromisoformat isoformat now1 now2 now3 r1 (r2 role) r3) w.
End Fetch.

End Startup.

(** * Properties *)

(** ** The embedding on sample inputs *)

Module Sanity.
Import PyStr Filter Adapters Pipeline Examples.

(** The code points below 256 that [str.isspace] takes for whitespace. *)
Example isspace_code_points :
  filter (λ n, isspace (ascii_of_nat n) = true) (seq 0 256)
  = [9; 10; 11; 12; 13; 28; 29; 30; 31; 32; 133; 160].
Proof. by vm_compute. Qed.

(** The code points below 256 that [str.lower] changes; each moves up by 32. *)
Example lower_code_points :
  filter (λ n, lower_char (ascii_of_nat n) ≠ ascii_of_nat n) (seq 0 256)
  = seq 65 26 ++ seq 192 23 ++ seq 216 7 ∧
  Forall (λ n, nat_of_ascii (lower_char (ascii_of_nat n)) = n + 32)
         (seq 65 26 ++ seq 192 23 ++ seq 216 7).
Proof. split; [by vm_compute | by repeat constructor]. Qed.

Example lower_title : lower "Senior DATA Engineer" = "senior data engineer".
Proof. reflexivity. Qed.

Example split_words : split "  Data   Scientist " = ["Data"; "Scientist"].
Proof. reflexivity. Qed.

Example split_blank : split (String "009" " ") = [] ∧ split "" = [].
Proof. by split. Qed.

Example empty_in_empty : contains "" "" = true ∧ contains "" "abc" = true.
Proof. by split. Qed.

Example uk_in_ukraine : contains "uk" (lower "Kyiv, Ukraine") = true.
Proof. reflexivity. Qed.

Example replace_markup : replace "<p>" " " "a<p>b<<p>p>c" = "a b< p>c".
Proof. reflexivity. Qed.

Example replace_zulu :
  replace_char "Z" "+00:00" "2024-05-02T00:00:00Z" = "2024-05-02T00:00:00+00:00".
Proof. reflexivity. Qed.

(** Five postings: a duplicate id and an irrelevant posting are left out. *)
Example filter_sample :
  filter_relevant_jobs false [analyst; gardener; analyst; nowhere; tokyo]
    (candidate ["Data Scientist"] ["sql"]) ∅
  = Ok [analyst; nowhere; tokyo].
Proof. by vm_compute. Qed.

(** The second copy of the loop would leave the Tokyo posting out. *)
Example allow_list_sample :
  allow_list_block false [tokyo] (candidate ["Data Scientist"] ["sql"]) ∅
  = Returns [].
Proof. by vm_compute. Qed.

(** Of each sample payload only the entry of 2 May passes the cutoff of
    noon, 2 May. *)
Example adapters_sample :
  job_id <$> all_jobs sample_fromisoformat sample_isoformat
               sample_now sample_now sample_now
               sample_remoteok sample_arbeitnow sample_themuse
  = ["rok_101"; "arb_dev"; "muse_7"].
Proof. by vm_compute. Qed.

(** Equal scores keep their order: the second and fourth pair lead. *)
Example sorted_reverse_ties :
  sorted_reverse (λ x : string * Z, x.2) [("a", 40); ("b", 90); ("c", 70); ("d", 90)]%Z
  = [("b", 90); ("d", 90); ("c", 70); ("a", 40)]%Z.
Proof. reflexivity. Qed.

End Sanity.

(** ** Python strings *)

Module PyStrFacts.
Import PyStr.

Lemma append_nil_l (s : string) : EmptyString +:+ s = s.
Proof. reflexivity. Qed.

Lemma append_cons (c : ascii) (a b : string) :
  String c a +:+ b = String c (a +:+ b).
Proof. reflexivity. Qed.

Lemma append_assoc (a b c : string) : (a +:+ b) +:+ c = a +:+ b +:+ c.
Proof.
  induction a as [|x a IH]; [done|]. by rewrite !append_cons, IH.
Qed.

Lemma startswith_spec kw text :
  startswith kw text = true ↔ ∃ post, text = kw +:+ post.
Proof.
  revert text. induction kw as [|a kw IH]; intros text; simpl.
  - split; [intros _; by exists text | done].
  - destruct text as [|b text]; simpl.
    + split; [done | intros [post H]; rewrite append_cons in H; discriminate].
    + destruct (Ascii.eqb_spec a b) as [->|Hne].
      * rewrite IH. split; intros [post H]; exists post.
        -- by rewrite append_cons, H.
        -- rewrite append_cons in H. by injection H.
      * split; [done | intros [post H]; rewrite append_cons in H; injection H; intros _ ?; by subst].
Qed.

Lemma contains_spec kw text :
  contains kw text = true ↔ is_substring kw text.
Proof.
  unfold is_substring. induction text as [|b text IH].
  - simpl. rewrite orb_false_r, startswith_spec. split.
    + intros [post H]. by exists EmptyString, post.
    + intros [pre [post H]]. destruct pre; [by exists post | rewrite append_cons in H; discriminate].
  - cbn [contains]. rewrite orb_true_iff, startswith_spec, IH. split.
    + intros [[post H] | [pre [post H]]].
      * by exists EmptyString, post.
      * exists (String b pre), post. by rewrite append_cons, H.
    + intros [pre [post H]]. destruct pre as [|c pre].
      * left. by exists post.
      * right. rewrite append_cons in H. injection H; intros H' _. by exists pre, post.
Qed.

Lemma contains_false kw text :
  contains kw text = false ↔ ¬ is_substring kw text.
Proof. rewrite <- contains_spec. by destruct (contains kw text). Qed.

Lemma isspace_lower_char c : isspace (lower_char c) = isspace c.
Proof. destruct c as [[] [] [] [] [] [] [] []]; reflexivity. Qed.

Lemma has_word_lower s : has_word (lower s) = has_word s.
Proof. induction s as [|c s IH]; simpl; [done | by rewrite isspace_lower_char, IH]. Qed.

Lemma truthy_append_char cur c : truthy (cur +:+ String c EmptyString) = true.
Proof. by destruct cur. Qed.

Lemma split_from_nil cur s :
  split_from cur s = [] ↔ truthy cur = false ∧ has_word s = false.
Proof.
  revert cur. induction s as [|c s IH]; intros cur; simpl.
  - destruct (truthy cur); intuition congruence.
  - destruct (isspace c); simpl.
    + destruct (truthy cur) eqn:E; [intuition congruence|].
      rewrite IH. intuition congruence.
    + rewrite IH, truthy_append_char. intuition congruence.
Qed.

Lemma index0_split_ok s : is_Ok (index0 (split s)) ↔ has_word s = true.
Proof.
  unfold split, is_Ok. destruct (split_from EmptyString s) as [|w ws] eqn:E; simpl.
  - apply split_from_nil in E as [_ ->].
    split; [intros [w Hw]; discriminate | done].
  - destruct (has_word s) eqn:Hw; [split; [done | by exists w]|].
    assert (split_from EmptyString s = []) as E' by (by apply split_from_nil).
    congruence.
Qed.

Lemma index0_split_raise s e :
  index0 (split s) = Raise e ↔ e = IndexError ∧ has_word s = false.
Proof.
  pose proof (index0_split_ok s) as H. unfold is_Ok in H.
  destruct (index0 (split s)) as [w|e'] eqn:E.
  - split; [done|]. intros [_ Hw]. destruct H as [H _].
    rewrite H in Hw; [done | by exists w].
  - assert (e' = IndexError) as ->.
    { unfold index0 in E. destruct (split s); congruence. }
    split.
    + intros [= <-]. split; [done|]. destruct (has_word s); [|done].
      destruct H as [_ [w Hw]]; [done | discriminate].
    + by intros [-> _].
Qed.

End PyStrFacts.

(** ** The relevance filter *)

Module FilterFacts.
Import PyStr PyStrFacts Filter.

Section LoopFacts.
Variable geo : Job → bool.
Variable need : nat.
Variable REMOTE_ONLY : bool.
Variable profile : Profile.
Variable already_seen : gset string.

Local Abbreviation body := (loop_body_with geo need REMOTE_ONLY profile already_seen).
Local Abbreviation loop := (for_jobs_with geo need REMOTE_ONLY profile already_seen).

Lemma is_duplicate_false seen_ids job :
  is_duplicate already_seen seen_ids job = false ↔
  (job_id job ∉ already_seen) ∧ (job_id job ∉ seen_ids).
Proof.
  unfold is_duplicate. rewrite orb_false_iff, !bool_decide_eq_false. tauto.
Qed.

(** An iteration leaves the state as it is or accepts the posting, and it
    accepts only a posting that is not a duplicate. *)
Lemma loop_body_with_cases st job st' :
  body st job = Ok st' →
  st' = st ∨
  (st' = accept st job ∧ (job_id job ∉ already_seen) ∧ (job_id job ∉ st.1)).
Proof.
  unfold loop_body_with.
  destruct (is_duplicate already_seen st.1 job) eqn:Hd; [intros [= <-]; by left|].
  destruct (remote_rejects REMOTE_ONLY job); [intros [= <-]; by left|].
  destruct (geo job); [intros [= <-]; by left|].
  destruct (relevant_with need profile job) as [[]|e]; simpl; intros [= <-].
  - right. split; [done|]. by apply is_duplicate_false.
  - by left.
Qed.

(** The loop appends to [filtered] a subsequence of the postings it
    reads, with pairwise distinct ids, none of them seen before. *)
Lemma for_jobs_with_appends jobs st st' :
  loop jobs st = Ok st' →
  ∃ added,
    st'.2 = st.2 ++ added ∧
    added `sublist_of` jobs ∧
    NoDup (job_id <$> added) ∧
    ∀ job, job ∈ added → (job_id job ∉ already_seen) ∧ (job_id job ∉ st.1).
Proof.
  revert st. induction jobs as [|job rest IH]; intros st; simpl.
  - intros [= <-]. exists []. rewrite app_nil_r.
    split_and!; [done | constructor | constructor | by intros job ?%not_elem_of_nil].
  - destruct (body st job) as [st1|e] eqn:Hb; simpl; [|done].
    intros Hrest. apply IH in Hrest as (added & Heq & Hsub & Hnd & Hfresh).
    apply loop_body_with_cases in Hb as [-> | (-> & Hseen & Hids)].
    + exists added. split_and!; [done | by apply sublist_cons | done | done].
    + exists (job :: added). simpl in *. split_and!.
      * by rewrite Heq, <- app_assoc.
      * by apply sublist_skip.
      * apply NoDup_cons. split; [|done].
        intros Hin. apply list_elem_of_fmap in Hin as (j & Hj & Hjin).
        destruct (Hfresh j Hjin) as [_ Hn]. apply Hn. rewrite <- Hj.
        apply elem_of_union. left. by apply elem_of_singleton.
      * intros j [-> | Hin]%elem_of_cons; [done|].
        destruct (Hfresh j Hin) as [? Hn]. split; [done|].
        intros Hj. apply Hn, elem_of_union. by right.
Qed.
End LoopFacts.

Lemma filter_relevant_jobs_unfold REMOTE_ONLY jobs profile already_seen l :
  filter_relevant_jobs REMOTE_ONLY jobs profile already_seen = Ok l ↔
  ∃ seen_ids filtered,
    for_jobs REMOTE_ONLY profile already_seen jobs (∅, []) = Ok (seen_ids, filtered)
    ∧ l = take 20 filtered.
Proof.
  unfold filter_relevant_jobs.
  destruct (for_jobs _ _ _ _ _) as [[seen_ids filtered]|e]; simpl.
  - split; [intros [= <-]; by exists seen_ids, filtered|].
    by intros (? & ? & [= <- <-] & ->).
  - split; [done | by intros (? & ? & ? & _)].
Qed.

End FilterFacts.

Module RelevanceFacts.
Import PyStr PyStrFacts Filter Spec.

Lemma index0_head {A} (xs : list A) x : index0 xs = Ok x ↔ head xs = Some x.
Proof. destruct xs; simpl; split; congruence. Qed.

Lemma head_split_has_word s : is_Some (head (split s)) ↔ has_word s = true.
Proof.
  rewrite <- index0_split_ok. unfold is_Ok, is_Some.
  split; intros [w Hw]; exists w; by apply index0_head.
Qed.

(** [any] answers true exactly when some role's first word is in the text
    and every role in front of it has a first word that is not. *)
Lemma any_role_in_true text roles :
  any_role_in text roles = Ok true ↔
  ∃ pre role w post,
    roles = pre ++ role :: post ∧ head (split role) = Some w ∧
    contains w text = true ∧
    ∀ r, r ∈ pre → ∃ w', head (split r) = Some w' ∧ contains w' text = false.
Proof.
  induction roles as [|r rest IH]; simpl.
  - split; [done|]. intros (pre & ? & ? & ? & H & _). by destruct pre.
  - destruct (index0 (split r)) as [w|e] eqn:Hw; simpl.
    + apply index0_head in Hw. destruct (contains w text) eqn:Hc.
      * split; [intros _|done]. exists [], r, w, rest.
        split_and!; [done..|]. by intros ? ?%not_elem_of_nil.
      * rewrite IH. split.
        -- intros (pre & role & w' & post & -> & Hh & Hin & Hpre).
           exists (r :: pre), role, w', post. split_and!; [done..|].
           intros r' [-> | Hr']%elem_of_cons; [by exists w | by apply Hpre].
        -- intros (pre & role & w' & post & Heq & Hh & Hin & Hpre).
           destruct pre as [|r0 pre]; simpl in Heq; injection Heq as <- ->.
           ++ congruence.
           ++ exists pre, role, w', post. split_and!; [done..|].
              intros r' Hr'. apply Hpre. by apply elem_of_cons; right.
    + split; [done|]. intros (pre & role & w' & post & Heq & Hh & Hin & Hpre).
      destruct pre as [|r0 pre]; simpl in Heq; injection Heq as <- ->.
      * apply index0_head in Hh. congruence.
      * destruct (Hpre r) as (w0 & Hw0 & _); [by apply elem_of_cons; left|].
        apply index0_head in Hw0. congruence.
Qed.

(** [any] answers false exactly when every role has a first word and none
    of them is in the text. *)
Lemma any_role_in_false text roles :
  any_role_in text roles = Ok false ↔
  ∀ r, r ∈ roles → ∃ w, head (split r) = Some w ∧ contains w text = false.
Proof.
  induction roles as [|r rest IH]; simpl.
  - split; [by intros _ ? ?%not_elem_of_nil | done].
  - destruct (index0 (split r)) as [w|e] eqn:Hw; simpl.
    + apply index0_head in Hw. destruct (contains w text) eqn:Hc.
      * split; [done|]. intros H.
        destruct (H r) as (w' & Hw' & Hc'); [by apply elem_of_cons; left|].
        congruence.
      * rewrite IH. split.
        -- intros H r' [-> | Hr']%elem_of_cons; [by exists w | by apply H].
        -- intros H r' Hr'. apply H. by apply elem_of_cons; right.
    + split; [done|]. intros H.
      destruct (H r) as (w' & Hw' & _); [by apply elem_of_cons; left|].
      apply index0_head in Hw'. congruence.
Qed.

(** [any] raises exactly when a role without a word is reached. *)
Lemma any_role_in_raise text roles e :
  any_role_in text roles = Raise e ↔
  e = IndexError ∧
  ∃ pre role post,
    roles = pre ++ role :: post ∧ has_word role = false ∧
    ∀ r, r ∈ pre → ∃ w, head (split r) = Some w ∧ contains w text = false.
Proof.
  induction roles as [|r rest IH]; simpl.
  - split; [done|]. intros (_ & pre & ? & ? & H & _). by destruct pre.
  - destruct (index0 (split r)) as [w|e'] eqn:Hw; simpl.
    + pose proof Hw as Hh. apply index0_head in Hh.
      assert (has_word r = true) as Hword.
      { apply index0_split_ok. by exists w. }
      destruct (contains w text) eqn:Hc.
      * split; [done|]. intros (_ & pre & role & post & Heq & Hnw & Hpre).
        destruct pre as [|r0 pre]; simpl in Heq; injection Heq as <- ->.
        -- congruence.
        -- destruct (Hpre r) as (w0 & Hw0 & Hc0); [by apply elem_of_cons; left|].
           congruence.
      * rewrite IH. split.
        -- intros (-> & pre & role & post & -> & Hnw & Hpre). split; [done|].
           exists (r :: pre), role, post. split_and!; [done..|].
           intros r' [-> | Hr']%elem_of_cons; [by exists w | by apply Hpre].
        -- intros (-> & pre & role & post & Heq & Hnw & Hpre). split; [done|].
           destruct pre as [|r0 pre]; simpl in Heq; injection Heq as <- ->.
           ++ congruence.
           ++ exists pre, role, post. split_and!; [done..|].
              intros r' Hr'. apply Hpre. by apply elem_of_cons; right.
    + apply index0_split_raise in Hw as [-> Hnw]. split.
      * intros [= <-]. split; [done|]. exists [], r, rest.
        split_and!; [done..|]. by intros ? ?%not_elem_of_nil.
      * by intros [-> _].
Qed.

Lemma skill_hits_length text skills :
  skill_hits text skills = length (filter (λ sk, contains sk text = true) skills).
Proof.
  unfold skill_hits.
  induction (filter (λ sk, contains sk text = true) skills) as [|x l IH];
    simpl; [done | by f_equal].
Qed.

Lemma skill_hits_positive text skills :
  (1 <=? skill_hits text skills) = true ↔
  ∃ sk, sk ∈ skills ∧ is_substring sk text.
Proof.
  rewrite skill_hits_length, Nat.leb_le. split.
  - intros Hlen.
    destruct (filter (λ sk, contains sk text = true) skills) as [|sk l] eqn:E;
      [simpl in Hlen; lia|].
    assert (sk ∈ filter (λ sk, contains sk text = true) skills) as Hin
      by (rewrite E; by apply elem_of_cons; left).
    apply list_elem_of_filter in Hin as [Hc Hin].
    exists sk. split; [done | by apply contains_spec].
  - intros (sk & Hin & Hsub%contains_spec).
    assert (sk ∈ filter (λ sk, contains sk text = true) skills) as Hf
      by (by apply list_elem_of_filter).
    destruct (filter (λ sk, contains sk text = true) skills);
      [by apply not_elem_of_nil in Hf | simpl; lia].
Qed.

Lemma roles_have_words_lowered profile :
  roles_have_words profile ↔
  ∀ r, r ∈ lowered_roles profile → has_word r = true.
Proof.
  unfold roles_have_words, lowered_roles. split.
  - intros H r (r0 & -> & Hin)%list_elem_of_fmap. rewrite has_word_lower. by apply H.
  - intros H r Hin. rewrite <- has_word_lower. apply H.
    apply list_elem_of_fmap. by exists r.
Qed.

(** With a word in every role the relevance test returns. *)
Lemma relevant_with_total need profile job :
  roles_have_words profile → is_Ok (relevant_with need profile job).
Proof.
  intros Hw. pose proof (proj1 (roles_have_words_lowered profile) Hw) as Hl.
  clear Hw; rename Hl into Hw. unfold relevant_with.
  destruct (any_role_in (job_text job) (lowered_roles profile)) as [b|e] eqn:E.
  - by eexists.
  - apply any_role_in_raise in E as (_ & pre & role & post & Heq & Hnw & _).
    rewrite Hw in Hnw; [done|]. rewrite Heq. apply elem_of_app. right.
    by apply elem_of_cons; left.
Qed.

(** The role half of the test, in the words of the specification. *)
Lemma any_role_in_spec profile job b :
  any_role_in (job_text job) (lowered_roles profile) = Ok b →
  (b = true ↔ role_first_word_in_text profile job).
Proof.
  intros E. destruct b.
  - split; [intros _|done].
    apply any_role_in_true in E as (pre & role & w & post & Heq & Hh & Hc & _).
    exists role, w. split_and!; [|done|by apply contains_spec].
    rewrite Heq. apply elem_of_app. right. by apply elem_of_cons; left.
  - split; [done|]. intros (role & w & Hin & Hh & Hsub%contains_spec).
    rewrite any_role_in_false in E. destruct (E role Hin) as (w' & Hh' & Hc').
    congruence.
Qed.

(** The relevance test, in the words of the specification. *)
Lemma relevant_spec profile job b :
  relevant profile job = Ok b →
  (b = true ↔ role_first_word_in_text profile job ∨ skill_in_text profile job).
Proof.
  unfold relevant, relevant_with.
  destruct (any_role_in (job_text job) (lowered_roles profile)) as [rm|e] eqn:E;
    [|done].
  intros H.
  assert (b = rm || (1 <=? skill_hits (job_text job) (lowered_skills profile)))
    as -> by (injection H as H; symmetry; exact H).
  rewrite orb_true_iff, skill_hits_positive.
  by rewrite (any_role_in_spec _ _ _ E).
Qed.

End RelevanceFacts.

(** ** The claims about the relevance filter *)

Section FilterClaims.
Import PyStr PyStrFacts Filter Spec FilterFacts RelevanceFacts Examples.

(** The loop returns whenever every target role has a word. *)
Lemma for_jobs_with_total geo need REMOTE_ONLY profile already_seen jobs st :
  roles_have_words profile →
  is_Ok (for_jobs_with geo need REMOTE_ONLY profile already_seen jobs st).
Proof.
  intros Hw. revert st. induction jobs as [|job rest IH]; intros st; simpl.
  - by eexists.
  - unfold loop_body_with.
    destruct (is_duplicate already_seen st.1 job); [apply IH|].
    destruct (remote_rejects REMOTE_ONLY job); [apply IH|].
    destruct (geo job); [apply IH|].
    destruct (relevant_with_total need profile job Hw) as [b ->].
    destruct b; apply IH.
Qed.

(** C1. Whatever the postings, the profile and the set of ids already
    seen, the ids of the list that [filter_relevant_jobs] returns are
    pairwise distinct, and none of them is in the set of ids seen at the
    start of the run. *)
Theorem C1_ids_unique_and_unseen
    (REMOTE_ONLY : bool) (jobs : list Job) (profile : Profile)
    (already_seen : gset string) (returned : list Job) :
  filter_relevant_jobs REMOTE_ONLY jobs profile already_seen = Ok returned →
  NoDup (job_id <$> returned) ∧
  ∀ job, job ∈ returned → job_id job ∉ already_seen.
Proof.
  intros (seen_ids & filtered & Hloop & ->)%filter_relevant_jobs_unfold.
  apply for_jobs_with_appends in Hloop as (added & Heq & _ & Hnd & Hfresh).
  simpl in Heq. subst filtered. split.
  - rewrite fmap_take. eapply sublist_NoDup; [exact Hnd | apply sublist_take].
  - intros job Hin. apply Hfresh.
    eapply elem_of_sublist; [exact Hin | apply sublist_take].
Qed.

Lemma C1_ids_unique_and_unseen_witness :
  NoDup (job_id <$> [analyst; tokyo]) ∧
  ∀ job, job ∈ [analyst; tokyo] → job_id job ∉ ({[ "rok_3" ]} : gset string).
Proof.
  apply (C1_ids_unique_and_unseen false
           [analyst; gardener; analyst; nowhere; tokyo]
           (candidate ["Data Scientist"] ["sql"]) {[ "rok_3" ]}).
  vm_compute. reflexivity.
Defined.

(** C2. The list that [filter_relevant_jobs] returns has at most 20
    postings and is a subsequence of the input, in the input's order: it is
    the first 20 (or all, when fewer) of the postings the loop accepted, in
    the order in which it accepted them. *)
Theorem C2_capped_subsequence
    (REMOTE_ONLY : bool) (jobs : list Job) (profile : Profile)
    (already_seen : gset string) (returned : list Job) :
  filter_relevant_jobs REMOTE_ONLY jobs profile already_seen = Ok returned →
  length returned ≤ 20 ∧
  returned `sublist_of` jobs ∧
  ∃ seen_ids filtered,
    for_jobs REMOTE_ONLY profile already_seen jobs (∅, []) = Ok (seen_ids, filtered) ∧
    filtered `sublist_of` jobs ∧
    returned = take 20 filtered ∧
    length returned = length filtered `min` 20.
Proof.
  intros (seen_ids & filtered & Hloop & ->)%filter_relevant_jobs_unfold.
  pose proof Hloop as (added & Heq & Hsub & _)%for_jobs_with_appends.
  simpl in Heq. subst filtered. split_and!.
  - rewrite length_take. lia.
  - etrans; [apply sublist_take | done].
  - exists seen_ids, added. split_and!; [done..|]. rewrite length_take. lia.
Qed.

Lemma C2_capped_subsequence_witness :
  length [analyst; nowhere; tokyo] ≤ 20 ∧
  [analyst; nowhere; tokyo] `sublist_of` [analyst; gardener; analyst; nowhere; tokyo] ∧
  ∃ seen_ids filtered,
    for_jobs false (candidate ["Data Scientist"] ["sql"]) ∅
      [analyst; gardener; analyst; nowhere; tokyo] (∅, []) = Ok (seen_ids, filtered) ∧
    filtered `sublist_of` [analyst; gardener; analyst; nowhere; tokyo] ∧
    [analyst; nowhere; tokyo] = take 20 filtered ∧
    length [analyst; nowhere; tokyo] = length filtered `min` 20.
Proof.
  apply (C2_capped_subsequence false
           [analyst; gardener; analyst; nowhere; tokyo]
           (candidate ["Data Scientist"] ["sql"]) ∅).
  vm_compute. reflexivity.
Defined.

Lemma loop_body_reaching REMOTE_ONLY profile already_seen st job :
  reaches_relevance_check REMOTE_ONLY already_seen st.1 job →
  loop_body REMOTE_ONLY profile already_seen st job =
  (ok ← relevant profile job; Ok (if (ok : bool) then accept st job else st)).
Proof.
  intros (Hd & Hr & Hg). unfold loop_body, loop_body_with.
  fold geography_rejects. rewrite Hd, Hr, Hg. fold relevant.
  by destruct (relevant profile job) as [[]|].
Qed.

Lemma accept_changes st job : accept st job ≠ st.
Proof.
  destruct st as [ids filtered]. unfold accept. simpl. intros [= _ H].
  apply (f_equal length) in H. rewrite length_app in H. simpl in H. lia.
Qed.

(** C3, as stated, fails: with the target roles [""] and ["Data Scientist"]
    the posting "Data Analyst" passes the three checks and the first word
    of the second role is in its text, yet the call raises [IndexError] at
    the first role and accepts nothing. *)
Lemma C3_counterexample :
  ¬ ∀ (REMOTE_ONLY : bool) (profile : Profile) (already_seen : gset string)
      (st : loop_state) (job : Job),
      reaches_relevance_check REMOTE_ONLY already_seen st.1 job →
      (loop_body REMOTE_ONLY profile already_seen st job = Ok (accept st job)
       ↔ role_first_word_in_text profile job ∨ skill_in_text profile job).
Proof.
  intros H.
  specialize (H false (candidate [""; "Data Scientist"] ["cobol"]) ∅ (∅, []) analyst).
  destruct H as [_ H]; [by vm_compute|].
  assert (loop_body false (candidate [""; "Data Scientist"] ["cobol"]) ∅ (∅, []) analyst
          = Raise IndexError) as Hraise by (by vm_compute).
  rewrite Hraise in H. discriminate H.
  left. exists "data scientist", "data". split_and!.
  - vm_compute. apply list_elem_of_further, list_elem_of_here.
  - by vm_compute.
  - apply contains_spec. by vm_compute.
Qed.

(** C3, amended. For a posting that passes the duplicate, remote-only and
    geography checks and for which the role test returns, the loop accepts
    the posting if the first word of some lower-cased target role, or one of
    the first eight lower-cased skills, is a substring of its lower-cased
    title and description, and leaves it out otherwise; and the role test
    returns whenever every target role has a word. *)
Theorem C3_accepts_iff_role_or_skill
    (REMOTE_ONLY : bool) (profile : Profile) (already_seen : gset string)
    (st : loop_state) (job : Job) :
  reaches_relevance_check REMOTE_ONLY already_seen st.1 job →
  is_Ok (relevant profile job) →
  (loop_body REMOTE_ONLY profile already_seen st job = Ok (accept st job)
   ↔ role_first_word_in_text profile job ∨ skill_in_text profile job) ∧
  (loop_body REMOTE_ONLY profile already_seen st job = Ok st
   ↔ ¬ (role_first_word_in_text profile job ∨ skill_in_text profile job)) ∧
  (role_first_word_in_text profile job → ¬ skill_in_text profile job →
   loop_body REMOTE_ONLY profile already_seen st job = Ok (accept st job)) ∧
  (roles_have_words profile → is_Ok (relevant profile job)).
Proof.
  intros Hreach [b Hb]. rewrite (loop_body_reaching _ _ _ _ _ Hreach), Hb.
  pose proof (relevant_spec _ _ _ Hb) as Hspec. simpl.
  pose proof (accept_changes st job) as Hne.
  split_and!.
  - rewrite <- Hspec. destruct b; split; congruence.
  - rewrite <- Hspec. destruct b; split; congruence.
  - intros Hrole _. destruct b; [done|].
    destruct Hspec as [_ Hs]. by discriminate Hs; left.
  - intros _. by exists b.
Qed.

Lemma C3_accepts_iff_role_or_skill_witness :
  (loop_body false (candidate ["Data Scientist"] ["cobol"]) ∅ (∅, []) analyst
     = Ok (accept (∅, []) analyst)
   ↔ role_first_word_in_text (candidate ["Data Scientist"] ["cobol"]) analyst
     ∨ skill_in_text (candidate ["Data Scientist"] ["cobol"]) analyst) ∧
  (loop_body false (candidate ["Data Scientist"] ["cobol"]) ∅ (∅, []) analyst
     = Ok (∅, [])
   ↔ ¬ (role_first_word_in_text (candidate ["Data Scientist"] ["cobol"]) analyst
        ∨ skill_in_text (candidate ["Data Scientist"] ["cobol"]) analyst)) ∧
  (role_first_word_in_text (candidate ["Data Scientist"] ["cobol"]) analyst →
   ¬ skill_in_text (candidate ["Data Scientist"] ["cobol"]) analyst →
   loop_body false (candidate ["Data Scientist"] ["cobol"]) ∅ (∅, []) analyst
     = Ok (accept (∅, []) analyst)) ∧
  (roles_have_words (candidate ["Data Scientist"] ["cobol"]) →
   is_Ok (relevant (candidate ["Data Scientist"] ["cobol"]) analyst)).
Proof.
  apply (C3_accepts_iff_role_or_skill false
           (candidate ["Data Scientist"] ["cobol"]) ∅ (∅, []) analyst).
  - by vm_compute.
  - exists true. by vm_compute.
Defined.

Lemma existsb_contains text kws :
  existsb (λ kw, contains kw text) kws = true ↔
  ∃ kw, kw ∈ kws ∧ is_substring kw text.
Proof.
  rewrite existsb_exists. split; intros (kw & Hin & Hc); exists kw.
  - split; [by apply list_elem_of_In | by apply contains_spec].
  - split; [by apply list_elem_of_In | by apply contains_spec].
Qed.

Lemma is_substring_empty kw : is_substring kw EmptyString → kw = EmptyString.
Proof.
  intros (pre & post & H). destruct pre; [|rewrite append_cons in H; discriminate].
  rewrite append_nil_l in H. destruct kw; [done | rewrite append_cons in H; discriminate].
Qed.

Lemma non_us_nonempty kw : kw ∈ non_us → kw ≠ EmptyString.
Proof.
  intros Hin ->. apply list_elem_of_In in Hin.
  assert (existsb (λ kw, negb (truthy kw)) non_us = true) as H.
  { apply existsb_exists. by exists EmptyString. }
  by vm_compute in H.
Qed.

(** The geography test of line 219, in the words of the specification. *)
Lemma geography_rejects_spec job :
  geography_rejects job = true ↔ location_matches non_us job.
Proof.
  unfold geography_rejects, geography_rejects_with, location_matches.
  rewrite andb_true_iff, existsb_contains. split; [by intros [_ H]|].
  intros (kw & Hin & Hsub). split; [|by exists kw].
  destruct (lower (location job)) eqn:E; [|done].
  apply is_substring_empty in Hsub. by apply non_us_nonempty in Hin.
Qed.

Lemma call_deny_list_block REMOTE_ONLY jobs profile already_seen :
  call (deny_list_block REMOTE_ONLY jobs profile already_seen) =
  Some <$> filter_relevant_jobs REMOTE_ONLY jobs profile already_seen.
Proof.
  unfold deny_list_block, policy_block, filter_relevant_jobs, for_jobs.
  by destruct (for_jobs_with _ _ _ _ _ _ _).
Qed.

(** C4. A posting that reaches the geography test is left out by it exactly
    when its lower-cased location contains one of the keywords of [non_us];
    otherwise the relevance test alone decides. The statements after the
    [return] of line 232, the allow-list copy of the loop, take no part in
    the value of a call: the body returns what lines 197-232 return,
    whatever follows them. *)
Theorem C4_deny_list_is_the_policy
    (REMOTE_ONLY : bool) (jobs : list Job) (profile : Profile)
    (already_seen : gset string) (st : loop_state) (job : Job) :
  (geography_rejects job = true ↔ location_matches non_us job) ∧
  (is_duplicate already_seen st.1 job = false →
   remote_rejects REMOTE_ONLY job = false →
   (location_matches non_us job →
    loop_body REMOTE_ONLY profile already_seen st job = Ok st) ∧
   (¬ location_matches non_us job →
    loop_body REMOTE_ONLY profile already_seen st job =
    (ok ← relevant profile job; Ok (if (ok : bool) then accept st job else st)))) ∧
  (∀ rest : outcome (list Job),
     call (filter_relevant_jobs_body_with rest REMOTE_ONLY jobs profile already_seen)
     = Some <$> filter_relevant_jobs REMOTE_ONLY jobs profile already_seen) ∧
  call (filter_relevant_jobs_body REMOTE_ONLY jobs profile already_seen)
  = Some <$> filter_relevant_jobs REMOTE_ONLY jobs profile already_seen.
Proof.
  assert (∀ rest : outcome (list Job),
     call (filter_relevant_jobs_body_with rest REMOTE_ONLY jobs profile already_seen)
     = Some <$> filter_relevant_jobs REMOTE_ONLY jobs profile already_seen) as Hrest.
  { intros rest. rewrite <- call_deny_list_block.
    unfold filter_relevant_jobs_body_with, deny_list_block, policy_block.
    by destruct (for_jobs_with _ _ _ _ _ _ _). }
  split_and!; [apply geography_rejects_spec | | exact Hrest | apply Hrest].
  intros Hd Hr. split.
  - intros Hm%geography_rejects_spec. unfold loop_body, loop_body_with.
    fold geography_rejects. by rewrite Hd, Hr, Hm.
  - intros Hm. apply loop_body_reaching. split_and!; [done..|].
    destruct (geography_rejects job) eqn:E; [|done].
    by apply geography_rejects_spec in E.
Qed.

Lemma C4_deny_list_is_the_policy_witness :
  location_matches non_us (posting "rok_5" "Data Analyst" "Berlin" "") ∧
  loop_body false (candidate ["Data Scientist"] []) ∅ (∅, [])
    (posting "rok_5" "Data Analyst" "Berlin" "") = Ok (∅, []) ∧
  loop_body false (candidate ["Data Scientist"] []) ∅ (∅, []) tokyo
  = Ok (accept (∅, []) tokyo) ∧
  call (filter_relevant_jobs_body false [tokyo] (candidate ["Data Scientist"] []) ∅)
  = Ok (Some [tokyo]) ∧
  call (allow_list_block false [tokyo] (candidate ["Data Scientist"] []) ∅)
  = Ok (Some []).
Proof.
  assert (location_matches non_us (posting "rok_5" "Data Analyst" "Berlin" "")) as Hm.
  { exists "berlin". split; [|apply contains_spec; by vm_compute].
    apply list_elem_of_In. vm_compute. tauto. }
  assert (¬ location_matches non_us tokyo) as Hn.
  { intros Hm'%geography_rejects_spec. by vm_compute in Hm'. }
  split_and!; [exact Hm | | | | by vm_compute].
  - destruct (C4_deny_list_is_the_policy false [] (candidate ["Data Scientist"] []) ∅
                (∅, []) (posting "rok_5" "Data Analyst" "Berlin" ""))
      as (_ & H & _); apply H; [by vm_compute | by vm_compute | exact Hm].
  - destruct (C4_deny_list_is_the_policy false [] (candidate ["Data Scientist"] []) ∅
                (∅, []) tokyo) as (_ & H & _).
    destruct H as [_ H]; [by vm_compute | by vm_compute |].
    rewrite (H Hn). by vm_compute.
  - destruct (C4_deny_list_is_the_policy false [tokyo] (candidate ["Data Scientist"] []) ∅
                (∅, []) tokyo) as (_ & _ & _ & H).
    rewrite H. by vm_compute.
Defined.

(** C9. A posting whose location is the empty string is never left out by
    the geography test, whatever keywords the deny-list holds: for such a
    posting the iteration runs as it would with no geography test at all.
    The test can leave out only postings with a non-empty location. *)
Theorem C9_empty_location_skips_geography
    (deny : list string) (need : nat) (REMOTE_ONLY : bool) (profile : Profile)
    (already_seen : gset string) (st : loop_state) (job : Job) :
  location job = EmptyString →
  geography_rejects_with deny job = false ∧
  loop_body_with (geography_rejects_with deny) need REMOTE_ONLY profile already_seen st job
  = loop_body_with (λ _, false) need REMOTE_ONLY profile already_seen st job ∧
  ∀ other, geography_rejects_with deny other = true → location other ≠ EmptyString.
Proof.
  intros Hloc.
  assert (∀ j, location j = EmptyString → geography_rejects_with deny j = false) as He.
  { intros j Hj. unfold geography_rejects_with. by rewrite Hj. }
  split_and!.
  - by apply He.
  - unfold loop_body_with. by rewrite (He job Hloc).
  - intros other Hrej Hempty. rewrite (He other Hempty) in Hrej. discriminate.
Qed.

Lemma C9_empty_location_skips_geography_witness :
  geography_rejects_with [EmptyString; "data"] nowhere = false ∧
  loop_body_with (geography_rejects_with [EmptyString; "data"]) 1 false
    (candidate ["Data Scientist"] []) ∅ (∅, []) nowhere
  = loop_body_with (λ _, false) 1 false (candidate ["Data Scientist"] []) ∅ (∅, []) nowhere ∧
  ∀ other, geography_rejects_with [EmptyString; "data"] other = true →
           location other ≠ EmptyString.
Proof.
  apply (C9_empty_location_skips_geography [EmptyString; "data"] 1 false
           (candidate ["Data Scientist"] []) ∅ (∅, []) nowhere).
  reflexivity.
Defined.

Lemma wordless_role_reached_iff profile job :
  wordless_role_reached profile job ↔
  ∃ pre role post,
    lowered_roles profile = pre ++ role :: post ∧ has_word role = false ∧
    ∀ r, r ∈ pre → ∃ w, head (split r) = Some w ∧ contains w (job_text job) = false.
Proof.
  unfold wordless_role_reached.
  split; intros (pre & role & post & Heq & Hnw & Hpre); exists pre, role, post;
    (split_and!; [done..|]); intros r Hr; destruct (Hpre r Hr) as (w & Hw & Hc);
    exists w; (split; [done|]); by apply contains_false.
Qed.

Lemma relevant_raise profile job e :
  relevant profile job = Raise e ↔ e = IndexError ∧ wordless_role_reached profile job.
Proof.
  rewrite wordless_role_reached_iff, <- any_role_in_raise.
  unfold relevant, relevant_with.
  destruct (any_role_in (job_text job) (lowered_roles profile)) as [b|e'];
    simpl; split; congruence.
Qed.

(** C10, as stated, fails in its last part: with the target roles
    ["Data Scientist"] and [""] the second role has no word, the posting
    "Data Analyst" reaches the relevance check, and the role test returns
    true at the first role without ever indexing the second. *)
Lemma C10_counterexample :
  ¬ ∀ (profile : Profile) (job : Job) (REMOTE_ONLY : bool)
      (already_seen seen_ids : gset string),
      ¬ roles_have_words profile →
      reaches_relevance_check REMOTE_ONLY already_seen seen_ids job →
      ∃ e, relevant profile job = Raise e.
Proof.
  intros H.
  destruct (H (candidate ["Data Scientist"; ""] []) analyst false ∅ ∅) as [e He].
  - intros Hw. specialize (Hw "").
    assert (has_word "" = true) as Hf; [|by vm_compute in Hf].
    apply Hw. vm_compute. apply list_elem_of_further, list_elem_of_here.
  - by vm_compute.
  - by vm_compute in He.
Qed.

(** C10, amended. [filter_relevant_jobs] returns for all postings and all
    sets of seen ids when every target role has a word. The index [[0]] is
    in bounds exactly for a role that has a word. The relevance test of a
    posting that reaches it raises, with [IndexError], exactly when a role
    without a word stands in the list in front of every role whose first
    word is in the posting's text; a role behind such a match is never
    indexed. *)
Theorem C10_total_unless_wordless_role_reached
    (profile : Profile) (job : Job) (REMOTE_ONLY : bool)
    (already_seen : gset string) (st : loop_state) :
  (roles_have_words profile →
   ∀ jobs seen, is_Ok (filter_relevant_jobs REMOTE_ONLY jobs profile seen)) ∧
  (∀ role, is_Ok (index0 (split (lower role))) ↔ has_word role = true) ∧
  (∀ e, relevant profile job = Raise e ↔
        e = IndexError ∧ wordless_role_reached profile job) ∧
  (reaches_relevance_check REMOTE_ONLY already_seen st.1 job →
   wordless_role_reached profile job →
   loop_body REMOTE_ONLY profile already_seen st job = Raise IndexError ∧
   ∀ before after,
     for_jobs REMOTE_ONLY profile already_seen before (∅, []) = Ok st →
     filter_relevant_jobs REMOTE_ONLY (before ++ job :: after) profile already_seen
     = Raise IndexError).
Proof.
  split_and!.
  - intros Hw jobs seen. unfold filter_relevant_jobs, for_jobs.
    destruct (for_jobs_with_total geography_rejects 1 REMOTE_ONLY profile seen
                jobs (∅, []) Hw) as [st' ->].
    by eexists.
  - intros role. by rewrite index0_split_ok, has_word_lower.
  - apply relevant_raise.
  - intros Hreach Hwr.
    assert (loop_body REMOTE_ONLY profile already_seen st job = Raise IndexError) as Hb.
    { rewrite (loop_body_reaching _ _ _ _ _ Hreach).
      assert (relevant profile job = Raise IndexError) as -> by (by apply relevant_raise).
      done. }
    split; [done|]. intros before after Hbefore.
    unfold filter_relevant_jobs.
    assert (∀ jobs1 jobs2 s0 s1,
              for_jobs REMOTE_ONLY profile already_seen jobs1 s0 = Ok s1 →
              for_jobs REMOTE_ONLY profile already_seen (jobs1 ++ jobs2) s0
              = for_jobs REMOTE_ONLY profile already_seen jobs2 s1) as Happ.
    { unfold for_jobs. induction jobs1 as [|j jobs1 IH]; intros jobs2 s0 s1; simpl.
      - by intros [= ->].
      - destruct (loop_body_with _ _ _ _ _ s0 j) as [s0'|]; simpl; [apply IH | done]. }
    rewrite (Happ _ _ _ _ Hbefore). unfold for_jobs in *. simpl.
    unfold loop_body in Hb. by rewrite Hb.
Qed.

Lemma C10_total_unless_wordless_role_reached_witness :
  (∀ jobs seen,
     is_Ok (filter_relevant_jobs false jobs (candidate ["Data Scientist"] []) seen)) ∧
  loop_body false (candidate [" "; "Data Scientist"] []) ∅ (∅, []) analyst
  = Raise IndexError.
Proof.
  split.
  - apply (C10_total_unless_wordless_role_reached
             (candidate ["Data Scientist"] []) analyst false ∅ (∅, [])).
    intros role Hin. apply list_elem_of_singleton in Hin. by subst role.
  - apply (C10_total_unless_wordless_role_reached
             (candidate [" "; "Data Scientist"] []) analyst false ∅ (∅, []));
      [by vm_compute|].
    exists [], " ", ["data scientist"]. split_and!; [done | done |].
    by intros r Hr%not_elem_of_nil.
Defined.

End FilterClaims.

(** ** The recency cutoff of the adapters *)

Module AdapterFacts.
Import PyStr Adapters.

Section ClockFacts.
Variable fromisoformat : string → option Z.
Variable isoformat : Z → string.
(** [datetime.fromisoformat("")] raises. *)
Hypothesis fromisoformat_empty : fromisoformat EmptyString = None.

Local Abbreviation posted_time := (posted_time fromisoformat).
Local Abbreviation older_than_24h := (older_than_24h fromisoformat).

Lemma truthy_false s : truthy s = false → s = EmptyString.
Proof. by destruct s. Qed.

Lemma not_older now job :
  (∀ t, posted_time job = Some t → (cutoff_of now ≤ t)%Z) →
  ¬ older_than_24h now job.
Proof.
  intros H (t & Ht & Hlt). apply H in Ht. unfold cutoff_of in Ht. lia.
Qed.

Lemma not_older_mono now now' job :
  (now ≤ now')%Z → ¬ older_than_24h now' job → ¬ older_than_24h now job.
Proof.
  intros Hle Hn (t & Ht & Hlt). apply Hn. exists t. split; [done | lia].
Qed.

(** Every posting of the output comes from an element of the payload. *)
Lemma collect_elem {R} (entry : R → result (option Job)) data jobs job :
  collect entry data = Ok jobs → job ∈ jobs →
  ∃ raw, raw ∈ data ∧ entry raw = Ok (Some job).
Proof.
  revert jobs. induction data as [|raw rest IH]; intros jobs; simpl.
  - intros [= <-] Hin. by apply not_elem_of_nil in Hin.
  - destruct (entry raw) as [o|e] eqn:Ho; simpl; [|done].
    destruct (collect entry rest) as [jobs'|e] eqn:Hc; simpl; [|done].
    intros [= <-] Hin.
    assert (job ∈ jobs' → ∃ raw0, raw0 ∈ raw :: rest ∧ entry raw0 = Ok (Some job)) as Hrest.
    { intros Hj. destruct (IH jobs' eq_refl Hj) as (raw0 & Hr & He).
      exists raw0. split; [by apply elem_of_cons; right | done]. }
    destruct o as [j|]; [|by apply Hrest].
    apply elem_of_cons in Hin as [-> | Hin]; [|by apply Hrest].
    exists raw. split; [by apply elem_of_cons; left | done].
Qed.

Lemma guarded_elem {R} (entry : R → result (option Job)) response job :
  job ∈ guarded entry response →
  ∃ data raw, response = Ok data ∧ raw ∈ data ∧ entry raw = Ok (Some job).
Proof.
  unfold guarded. destruct response as [data|e]; simpl.
  - destruct (collect entry data) as [jobs|e] eqn:Hc.
    + intros Hin. destruct (collect_elem _ _ _ _ Hc Hin) as (raw & Hr & He).
      by exists data, raw.
    + by intros Hin%not_elem_of_nil.
  - by intros Hin%not_elem_of_nil.
Qed.

Lemma remoteok_entry_fresh now raw job t :
  remoteok_entry fromisoformat now raw = Ok (Some job) →
  posted_time job = Some t → (cutoff_of now ≤ t)%Z.
Proof.
  unfold remoteok_entry. destruct raw as [e|]; [|done].
  destruct (truthy (get_str (rok_id e) "")); simpl; [|done].
  destruct (truthy (get_str (rok_date e) "")) eqn:Hd.
  - unfold parse_date.
    destruct (fromisoformat (replace_char "Z" "+00:00" (get_str (rok_date e) "")))
      as [posted|] eqn:Hp; simpl; [|done].
    destruct (posted <? cutoff_of now)%Z eqn:Hlt; [done|].
    intros [= <-]. unfold Adapters.posted_time. simpl. rewrite Hp.
    intros [= <-]. by apply Z.ltb_ge.
  - simpl. destruct (now <? cutoff_of now)%Z; [done|].
    intros [= <-]. unfold Adapters.posted_time. simpl.
    apply truthy_false in Hd. rewrite Hd. simpl. by rewrite fromisoformat_empty.
Qed.

Lemma themuse_entry_fresh now raw job t :
  themuse_entry fromisoformat now raw = Ok (Some job) →
  posted_time job = Some t → (cutoff_of now ≤ t)%Z.
Proof.
  unfold themuse_entry.
  destruct (truthy (get_str (muse_publication_date raw) "")) eqn:Hd.
  - unfold parse_date.
    destruct (fromisoformat (replace_char "Z" "+00:00"
                (get_str (muse_publication_date raw) ""))) as [posted|] eqn:Hp;
      simpl; [|done].
    destruct (posted <? cutoff_of now)%Z eqn:Hlt; [done|].
    destruct (item (muse_id raw)) as [id|]; simpl; [|done].
    intros [= <-]. unfold Adapters.posted_time. simpl. rewrite Hp.
    intros [= <-]. by apply Z.ltb_ge.
  - simpl. destruct (item (muse_id raw)) as [id|]; simpl; [|done].
    intros [= <-]. unfold Adapters.posted_time. simpl.
    apply truthy_false in Hd. rewrite Hd. simpl. by rewrite fromisoformat_empty.
Qed.

Lemma arbeitnow_entry_fresh now raw job :
  arbeitnow_entry isoformat now raw = Ok (Some job) →
  ∃ created, arb_created_at raw = Some created ∧
             posted_at job = isoformat (1000000 * created) ∧
             (cutoff_of now ≤ 1000000 * created)%Z.
Proof.
  unfold arbeitnow_entry.
  destruct (1000000 * default 0 (arb_created_at raw) <? cutoff_of now)%Z eqn:Hlt;
    [done|].
  destruct (arb_slug raw) as [slug|]; simpl; [|done].
  destruct (arb_created_at raw) as [created|]; simpl; [|done].
  intros [= <-]. exists created. simpl in *. split_and!; [done..|].
  by apply Z.ltb_ge.
Qed.
End ClockFacts.

End AdapterFacts.

Section AdapterClaims.
Import PyStr Filter Adapters AdapterFacts FilterFacts Examples.

(** C5. No adapter returns a posting whose [posted_at] denotes an instant
    more than 24 hours before the adapter was called, and so no such
    posting is in the list the filter returns for the concatenated outputs.
    [fromisoformat] is any parser that rejects the empty string; for
    Arbeitnow, whose [posted_at] is printed by [isoformat], the printed
    instants of the payload are assumed to parse back. *)
Theorem C5_no_posting_older_than_cutoff
    (fromisoformat : string → option Z) (isoformat : Z → string)
    (now1 now2 now3 : Z)
    (r1 : result (list (option RemoteOKEntry)))
    (r2 : result (list ArbeitnowEntry))
    (r3 : result (list MuseEntry))
    (REMOTE_ONLY : bool) (profile : Profile) (already_seen : gset string) :
  fromisoformat EmptyString = None →
  (∀ data raw created,
     r2 = Ok data → raw ∈ data → arb_created_at raw = Some created →
     fromisoformat (replace_char "Z" "+00:00" (isoformat (1000000 * created)%Z))
     = Some (1000000 * created)%Z) →
  (now1 ≤ now2)%Z → (now2 ≤ now3)%Z →
  (∀ job, job ∈ fetch_remoteok_jobs fromisoformat now1 r1 →
          ¬ older_than_24h fromisoformat now1 job) ∧
  (∀ job, job ∈ fetch_arbeitnow_jobs isoformat now2 r2 →
          ¬ older_than_24h fromisoformat now2 job) ∧
  (∀ job, job ∈ fetch_themuse_jobs fromisoformat now3 r3 →
          ¬ older_than_24h fromisoformat now3 job) ∧
  (∀ returned job,
     filter_relevant_jobs REMOTE_ONLY
       (all_jobs fromisoformat isoformat now1 now2 now3 r1 r2 r3)
       profile already_seen = Ok returned →
     job ∈ returned → ¬ older_than_24h fromisoformat now1 job).
Proof.
  intros Hempty Hback H12 H23.
  assert (∀ job, job ∈ fetch_remoteok_jobs fromisoformat now1 r1 →
                 ¬ older_than_24h fromisoformat now1 job) as Hrok.
  { intros job (data & raw & _ & _ & He)%guarded_elem.
    apply not_older. intros t. by apply remoteok_entry_fresh with (raw := raw). }
  assert (∀ job, job ∈ fetch_arbeitnow_jobs isoformat now2 r2 →
                 ¬ older_than_24h fromisoformat now2 job) as Harb.
  { intros job (data & raw & Hr & Hin & He)%guarded_elem.
    apply arbeitnow_entry_fresh in He as (created & Hc & Hp & Hle).
    apply not_older. intros t. unfold posted_time. rewrite Hp.
    rewrite (Hback data raw created Hr Hin Hc). by intros [= <-]. }
  assert (∀ job, job ∈ fetch_themuse_jobs fromisoformat now3 r3 →
                 ¬ older_than_24h fromisoformat now3 job) as Hmuse.
  { intros job (data & raw & _ & _ & He)%guarded_elem.
    apply not_older. intros t. by apply themuse_entry_fresh with (raw := raw). }
  split_and!; [done..|].
  intros returned job Hret Hin.
  apply filter_relevant_jobs_unfold in Hret as (seen_ids & filtered & Hloop & ->).
  apply for_jobs_with_appends in Hloop as (added & Heq & Hsub & _).
  simpl in Heq. subst filtered.
  assert (job ∈ all_jobs fromisoformat isoformat now1 now2 now3 r1 r2 r3) as Hall.
  { eapply elem_of_sublist; [|exact Hsub].
    eapply elem_of_sublist; [exact Hin | apply sublist_take]. }
  unfold all_jobs in Hall.
  apply elem_of_app in Hall as [H1 | [H2 | H3]%elem_of_app].
  - by apply Hrok.
  - apply not_older_mono with (now' := now2); [done | by apply Harb].
  - apply not_older_mono with (now' := now3); [lia | by apply Hmuse].
Qed.

Lemma C5_no_posting_older_than_cutoff_witness :
  Forall (λ job, ¬ older_than_24h sample_fromisoformat sample_now job)
         (all_jobs sample_fromisoformat sample_isoformat
            sample_now sample_now sample_now
            sample_remoteok sample_arbeitnow sample_themuse).
Proof.
  apply Forall_forall. intros job Hin.
  destruct (C5_no_posting_older_than_cutoff sample_fromisoformat sample_isoformat
              sample_now sample_now sample_now
              sample_remoteok sample_arbeitnow sample_themuse
              false (candidate [] []) ∅) as (H1 & H2 & H3 & _).
  - reflexivity.
  - intros data raw created [= <-] Hraw Hc.
    apply elem_of_cons in Hraw as [-> | Hraw].
    { injection Hc as <-. reflexivity. }
    apply list_elem_of_singleton in Hraw as ->.
    injection Hc as <-. reflexivity.
  - lia.
  - lia.
  - unfold all_jobs in Hin.
    apply elem_of_app in Hin as [Hin | [Hin | Hin]%elem_of_app]; auto.
Defined.

End AdapterClaims.

(** ** The ranked digest *)

Module SortFacts.
Import Pipeline.

Section SortedFacts.
Context {A : Type} (key : A → Z).

Lemma insert_desc_perm x xs : insert_desc key x xs ≡ₚ x :: xs.
Proof.
  induction xs as [|y ys IH]; simpl; [done|].
  destruct (key x <? key y)%Z; [|done].
  rewrite IH. apply perm_swap.
Qed.

Lemma sorted_reverse_perm xs : sorted_reverse key xs ≡ₚ xs.
Proof.
  induction xs as [|x xs IH]; simpl; [done|].
  by rewrite insert_desc_perm, IH.
Qed.

Lemma insert_desc_sorted x xs :
  StronglySorted (λ a b, (key b ≤ key a)%Z) xs →
  StronglySorted (λ a b, (key b ≤ key a)%Z) (insert_desc key x xs).
Proof.
  induction 1 as [|y ys Hs IH Hall]; simpl.
  - repeat constructor.
  - destruct (key x <? key y)%Z eqn:Hlt.
    + apply Z.ltb_lt in Hlt. constructor; [done|].
      rewrite Forall_forall. intros z Hz.
      rewrite insert_desc_perm in Hz.
      apply elem_of_cons in Hz as [-> | Hz]; [lia|].
      rewrite Forall_forall in Hall. by apply Hall.
    + apply Z.ltb_ge in Hlt. constructor; [by constructor|].
      constructor; [done|]. eapply Forall_impl; [exact Hall|].
      simpl. intros z Hz. lia.
Qed.

Lemma sorted_reverse_sorted xs :
  StronglySorted (λ a b, (key b ≤ key a)%Z) (sorted_reverse key xs).
Proof.
  induction xs as [|x xs IH]; simpl; [constructor | by apply insert_desc_sorted].
Qed.

(** An element moves behind elements of a strictly greater key only, so
    the elements of any one key keep their order. *)
Lemma insert_desc_filter (k : Z) x xs :
  filter (λ y, key y = k) (insert_desc key x xs) = filter (λ y, key y = k) (x :: xs).
Proof.
  induction xs as [|y ys IH]; simpl; [done|].
  destruct (key x <? key y)%Z eqn:Hlt; [|done].
  apply Z.ltb_lt in Hlt. rewrite (filter_cons _ y), IH, !filter_cons.
  destruct (decide (key y = k)), (decide (key x = k)); try done. lia.
Qed.

Lemma sorted_reverse_filter (k : Z) xs :
  filter (λ y, key y = k) (sorted_reverse key xs) = filter (λ y, key y = k) xs.
Proof.
  induction xs as [|x xs IH]; simpl; [done|].
  by rewrite insert_desc_filter, !filter_cons, IH.
Qed.
End SortedFacts.

End SortFacts.

Section DigestClaims.
Import PyStr Filter Pipeline Spec SortFacts Examples.

(** C6. The cards of the digest stand in the order of the pairs sorted by
    descending match score: the sorted list holds the same pairs as the
    input, no pair stands in front of one with a greater score, and pairs
    with equal scores keep the order they had in the input. Pairs with the
    scores 40, 90, 70 give cards with the scores 90, 70, 40. A non-empty
    list of pairs is sent as this digest. *)
Theorem C6_digest_ranked_by_score
    (smtp_delivers : Digest → bool) (w w' : World)
    (jobs_with_ai : list (Job * Ai)) (sheet_id : string) :
  jobs_with_ai ≠ [] →
  send_email_digest smtp_delivers w jobs_with_ai sheet_id = Ok w' →
  let sorted_jobs := sorted_reverse score_key jobs_with_ai in
  outbox w' = outbox w ++ [build_digest jobs_with_ai sheet_id] ∧
  digest_cards (build_digest jobs_with_ai sheet_id) = render_card <$> sorted_jobs ∧
  card_score <$> digest_cards (build_digest jobs_with_ai sheet_id)
  = score_key <$> sorted_jobs ∧
  sorted_jobs ≡ₚ jobs_with_ai ∧
  by_descending_score sorted_jobs ∧
  ties_keep_order jobs_with_ai sorted_jobs ∧
  card_score <$> digest_cards (build_digest three_pairs sheet_id) = [90; 70; 40]%Z.
Proof.
  intros Hne Hsend sorted_jobs. split_and!.
  - unfold send_email_digest in Hsend.
    destruct jobs_with_ai as [|x xs]; [done|].
    destruct (smtp_delivers _); [|done]. by injection Hsend as <-.
  - done.
  - unfold build_digest. simpl. fold sorted_jobs. rewrite <- list_fmap_compose.
    apply list_fmap_ext. by intros _ [job ai] _.
  - apply sorted_reverse_perm.
  - apply sorted_reverse_sorted.
  - intros score. apply sorted_reverse_filter.
  - reflexivity.
Qed.

Lemma C6_digest_ranked_by_score_witness :
  outbox {| sheet := []; requests := [];
            outbox := [build_digest three_pairs "sheet"] |}
  = outbox empty_world ++ [build_digest three_pairs "sheet"] ∧
  by_descending_score (sorted_reverse score_key three_pairs) ∧
  ties_keep_order three_pairs (sorted_reverse score_key three_pairs).
Proof.
  destruct (C6_digest_ranked_by_score delivers empty_world
              {| sheet := []; requests := [];
                 outbox := [build_digest three_pairs "sheet"] |}
              three_pairs "sheet") as (H1 & _ & _ & _ & H2 & H3 & _).
  - discriminate.
  - reflexivity.
  - by split_and!.
Defined.

End DigestClaims.

(** ** Enrichment and persistence *)

Module RunFacts.
Import Pipeline.

Section EnrichFacts.
Variable oracle : list Job → Job → Profile → result Ai.
Variable store_appends : list Row → Row → bool.
Variable profile : Profile.
Hypothesis store_ok : ∀ rows row, store_appends rows row = true.

(** The loop over postings whose oracle calls all succeed: every posting
    is enriched and its row appended, in order. *)
Lemma enrich_succeeding jobs w acc :
  (∀ i job, jobs !! i = Some job →
            is_Ok (oracle (requests w ++ take i jobs) job profile)) →
  ∃ pairs,
    foldl (enrich_one oracle store_appends profile) (w, acc) jobs
    = ({| sheet := sheet w ++ (row_of <$> pairs);
          requests := requests w ++ jobs;
          outbox := outbox w |}, acc ++ pairs) ∧
    pairs.*1 = jobs.
Proof.
  revert w acc. induction jobs as [|job rest IH]; intros w acc Hok.
  - exists []. simpl. rewrite !app_nil_r. by destruct w.
  - destruct (Hok 0 job eq_refl) as [ai Hai]. simpl in Hai.
    rewrite app_nil_r in Hai.
    simpl. unfold analyze_job, write_job_to_sheet. rewrite Hai. simpl.
    rewrite store_ok.
    edestruct (IH {| sheet := sheet w ++ [make_row job ai];
                     requests := requests w ++ [job];
                     outbox := outbox w |} (acc ++ [(job, ai)]))
      as (pairs & Hfold & Hfst).
    { intros i j Hj. simpl. rewrite <- app_assoc. simpl.
      apply (Hok (S i) j Hj). }
    exists ((job, ai) :: pairs). split; [|by rewrite fmap_cons, Hfst].
    rewrite Hfold. simpl. by rewrite <- !app_assoc.
Qed.

(** One iteration whose oracle call fails: nothing is kept and nothing
    is written; only the request is on record. *)
Lemma enrich_one_failing w acc job e :
  oracle (requests w) job profile = Raise e →
  enrich_one oracle store_appends profile (w, acc) job
  = ({| sheet := sheet w; requests := requests w ++ [job]; outbox := outbox w |}, acc).
Proof. intros H. unfold enrich_one, analyze_job. by rewrite H. Qed.
End EnrichFacts.

End RunFacts.

Section RunClaims.
Import PyStr Filter Pipeline Spec FilterFacts RunFacts Examples.

(** C7. When the oracle call fails for one of the filtered postings and
    succeeds for all the others, and the store takes every row, the loop
    drops that posting alone: the enriched pairs are those of the other
    postings, in order, one fewer than the filtered postings; the sheet
    gains the rows of exactly these pairs, none of them with the id of the
    failed posting; and the run goes on to the digest and ends normally
    when the transport delivers. *)
Theorem C7_one_oracle_failure_drops_one_posting
    (oracle : list Job → Job → Profile → result Ai)
    (store_appends : list Row → Row → bool) (smtp_delivers : Digest → bool)
    (REMOTE_ONLY : bool) (sheet_id : string) (profile : Profile)
    (already_seen : gset string) (all_jobs : list Job) (w : World)
    (before : list Job) (failed : Job) (after : list Job) (e : exn) :
  filter_relevant_jobs REMOTE_ONLY all_jobs profile already_seen
  = Ok (before ++ failed :: after) →
  (∀ i job, before !! i = Some job →
            is_Ok (oracle (requests w ++ take i before) job profile)) →
  oracle (requests w ++ before) failed profile = Raise e →
  (∀ i job, after !! i = Some job →
            is_Ok (oracle (requests w ++ before ++ failed :: take i after) job profile)) →
  (∀ rows row, store_appends rows row = true) →
  (∀ digest, smtp_delivers digest = true) →
  ∃ enriched w1 w2,
    enrich_all oracle store_appends profile w (before ++ failed :: after)
    = (w1, enriched) ∧
    enriched.*1 = before ++ after ∧
    length enriched = length (before ++ failed :: after) - 1 ∧
    sheet w1 = sheet w ++ (row_of <$> enriched) ∧
    (job_id failed ∉ job_id <$> enriched.*1) ∧
    requests w1 = requests w ++ before ++ failed :: after ∧
    main oracle store_appends smtp_delivers REMOTE_ONLY sheet_id profile
         already_seen all_jobs w = Ok w2 ∧
    sheet w2 = sheet w1.
Proof.
  intros Hfilter Hbefore Hfail Hafter Hstore Hsmtp.
  destruct (enrich_succeeding oracle store_appends profile Hstore before w [] Hbefore)
    as (pairs1 & Hfold1 & Hfst1).
  set (wa := {| sheet := sheet w ++ (row_of <$> pairs1);
                requests := requests w ++ before; outbox := outbox w |}) in *.
  set (wb := {| sheet := sheet wa; requests := requests wa ++ [failed];
                outbox := outbox wa |}).
  destruct (enrich_succeeding oracle store_appends profile Hstore after wb pairs1)
    as (pairs2 & Hfold2 & Hfst2).
  { intros i job Hj. simpl. rewrite <- !app_assoc. simpl. by apply Hafter. }
  set (w1 := {| sheet := sheet wb ++ (row_of <$> pairs2);
                requests := requests wb ++ after; outbox := outbox wb |}) in *.
  assert (enrich_all oracle store_appends profile w (before ++ failed :: after)
          = (w1, pairs1 ++ pairs2)) as Hall.
  { unfold enrich_all. rewrite foldl_app, Hfold1. cbn [foldl app].
    rewrite (enrich_one_failing oracle store_appends profile wa pairs1 failed e Hfail).
    exact Hfold2. }
  assert ((pairs1 ++ pairs2).*1 = before ++ after) as Hfst
    by (by rewrite fmap_app, Hfst1, Hfst2).
  assert (sheet w1 = sheet w ++ (row_of <$> pairs1 ++ pairs2)) as Hsheet
    by (simpl; by rewrite fmap_app, app_assoc).
  assert (∃ w2, send_email_digest smtp_delivers w1 (pairs1 ++ pairs2) sheet_id = Ok w2
                ∧ sheet w2 = sheet w1) as (w2 & Hsend & Hw2).
  { unfold send_email_digest. destruct (pairs1 ++ pairs2); [by eexists|].
    rewrite Hsmtp. by eexists. }
  exists (pairs1 ++ pairs2), w1, w2. split_and!; try done.
  - rewrite <- (length_fmap fst), Hfst, !length_app. simpl. lia.
  - rewrite Hfst.
    apply filter_relevant_jobs_unfold in Hfilter as (ids & filtered & Hloop & Htake).
    apply for_jobs_with_appends in Hloop as (added & Heq & _ & Hnd & _).
    simpl in Heq. subst filtered.
    assert (NoDup (job_id <$> before ++ failed :: after)) as Hnd'.
    { rewrite Htake, fmap_take.
      eapply sublist_NoDup; [exact Hnd | apply sublist_take]. }
    rewrite fmap_app, fmap_cons in Hnd'.
    apply NoDup_app in Hnd' as (_ & Hdisj & Hnd2).
    apply NoDup_cons in Hnd2 as [Hnot _].
    rewrite fmap_app. intros [Hin | Hin]%elem_of_app; [|done].
    apply (Hdisj _ Hin). by apply elem_of_cons; left.
  - simpl. by rewrite <- !app_assoc.
  - unfold main. rewrite Hfilter. unfold mbind, result_bind.
    destruct (before ++ failed :: after) as [|j l] eqn:Hnil; [by destruct before|].
    rewrite Hall. exact Hsend.
Qed.

Lemma C7_one_oracle_failure_drops_one_posting_witness :
  ∃ enriched w1 w2,
    enrich_all (oracle_failing_on "rok_3") always (candidate ["Data Scientist"] [])
      empty_world ([analyst] ++ nowhere :: [tokyo]) = (w1, enriched) ∧
    enriched.*1 = [analyst] ++ [tokyo] ∧
    length enriched = length ([analyst] ++ nowhere :: [tokyo]) - 1 ∧
    sheet w1 = sheet empty_world ++ (row_of <$> enriched) ∧
    (job_id nowhere ∉ job_id <$> enriched.*1) ∧
    requests w1 = requests empty_world ++ [analyst] ++ nowhere :: [tokyo] ∧
    main (oracle_failing_on "rok_3") always delivers false "sheet"
         (candidate ["Data Scientist"] []) ∅ [analyst; gardener; nowhere; tokyo]
         empty_world = Ok w2 ∧
    sheet w2 = sheet w1.
Proof.
  apply (C7_one_oracle_failure_drops_one_posting (oracle_failing_on "rok_3")
           always delivers false "sheet" (candidate ["Data Scientist"] []) ∅
           [analyst; gardener; nowhere; tokyo] empty_world
           [analyst] nowhere [tokyo] ValueError).
  - by vm_compute.
  - intros [|i] job Hj; [|done]. injection Hj as <-. by eexists.
  - reflexivity.
  - intros [|i] job Hj; [|done]. injection Hj as <-. by eexists.
  - done.
  - done.
Defined.

(** C8. When the filter returns the empty list the run ends there,
    normally, with the world as it was: no request to the oracle, no row in
    the sheet, no digest sent. *)
Theorem C8_empty_filter_ends_the_run
    (oracle : list Job → Job → Profile → result Ai)
    (store_appends : list Row → Row → bool) (smtp_delivers : Digest → bool)
    (REMOTE_ONLY : bool) (sheet_id : string) (profile : Profile)
    (already_seen : gset string) (all_jobs : list Job) (w : World) :
  filter_relevant_jobs REMOTE_ONLY all_jobs profile already_seen = Ok [] →
  ∃ w',
    main oracle store_appends smtp_delivers REMOTE_ONLY sheet_id profile
         already_seen all_jobs w = Ok w' ∧
    requests w' = requests w ∧ sheet w' = sheet w ∧ outbox w' = outbox w.
Proof.
  intros Hfilter. exists w. unfold main. by rewrite Hfilter.
Qed.

Lemma C8_empty_filter_ends_the_run_witness :
  ∃ w',
    main (oracle_failing_on "rok_3") always delivers false "sheet"
         (candidate ["Data Scientist"] []) ∅ [gardener] empty_world = Ok w' ∧
    requests w' = requests empty_world ∧ sheet w' = sheet empty_world ∧
    outbox w' = outbox empty_world.
Proof.
  apply (C8_empty_filter_ends_the_run (oracle_failing_on "rok_3") always delivers
           false "sheet" (candidate ["Data Scientist"] []) ∅ [gardener] empty_world).
  by vm_compute.
Defined.

End RunClaims.

(** * Further properties of the code *)

(** ** The enrichment loop and the run *)

Module RunInvariants.
Import Pipeline.

Section Invariant.
Variable oracle : list Job → Job → Profile → result Ai.
Variable store_appends : list Row → Row → bool.
Variable profile : Profile.

(** What one iteration does to the world and to [jobs_with_ai], whatever
    the oracle and the store answer. *)
Lemma enrich_one_cases w acc job :
  ∃ added : list (Job * Ai),
    enrich_one oracle store_appends profile (w, acc) job
    = ({| sheet := sheet w ++ (row_of <$> added);
          requests := requests w ++ [job];
          outbox := outbox w |}, acc ++ added) ∧
    (added = [] ∨
     ∃ ai, added = [(job, ai)] ∧ oracle (requests w) job profile = Ok ai ∧
           store_appends (sheet w) (make_row job ai) = true).
Proof.
  unfold enrich_one, analyze_job, write_job_to_sheet.
  destruct (oracle (requests w) job profile) as [ai|e] eqn:Ho; simpl.
  - destruct (store_appends (sheet w) (make_row job ai)) eqn:Hs; simpl.
    + exists [(job, ai)]. split; [done|]. right. by exists ai.
    + exists []. rewrite !app_nil_r. split; [by destruct w | by left].
  - exists []. rewrite !app_nil_r. split; [done | by left].
Qed.

Lemma enrich_fold_invariant jobs w acc :
  ∃ added : list (Job * Ai),
    foldl (enrich_one oracle store_appends profile) (w, acc) jobs
    = ({| sheet := sheet w ++ (row_of <$> added);
          requests := requests w ++ jobs;
          outbox := outbox w |}, acc ++ added) ∧
    added.*1 `sublist_of` jobs.
Proof.
  revert w acc. induction jobs as [|job rest IH]; intros w acc.
  - exists []. simpl. rewrite !app_nil_r. split; [by destruct w | constructor].
  - destruct (enrich_one_cases w acc job) as (first & Hone & Hfirst).
    cbn [foldl]. rewrite Hone.
    edestruct IH as (more & Hfold & Hsub). rewrite Hfold. simpl.
    exists (first ++ more). rewrite fmap_app, <- !app_assoc. split; [done|].
    destruct Hfirst as [-> | (ai & -> & _)]; simpl.
    + by apply sublist_cons.
    + by apply sublist_skip.
Qed.
End Invariant.

End RunInvariants.

Section RunExtras.
Import PyStr Filter Pipeline Spec FilterFacts SortFacts RunInvariants Examples.

Lemma build_digest_count (pairs : list (Job * Ai)) sheet_id :
  digest_count (build_digest pairs sheet_id) = length pairs ∧
  length (digest_cards (build_digest pairs sheet_id)) = length pairs.
Proof.
  unfold build_digest. simpl. rewrite length_fmap.
  by rewrite (Permutation_length (sorted_reverse_perm score_key pairs)).
Qed.

(** What a run that returns has done. *)
Lemma main_Ok_inv oracle store_appends smtp_delivers REMOTE_ONLY sheet_id
    profile already_seen all_jobs w w' :
  main oracle store_appends smtp_delivers REMOTE_ONLY sheet_id profile
       already_seen all_jobs w = Ok w' →
  ∃ relevant_jobs (enriched : list (Job * Ai)),
    filter_relevant_jobs REMOTE_ONLY all_jobs profile already_seen = Ok relevant_jobs ∧
    enriched.*1 `sublist_of` relevant_jobs ∧
    sheet w' = sheet w ++ (row_of <$> enriched) ∧
    requests w' = requests w ++ relevant_jobs ∧
    ((enriched = [] ∧ outbox w' = outbox w) ∨
     (enriched ≠ [] ∧ outbox w' = outbox w ++ [build_digest enriched sheet_id])).
Proof.
  unfold main.
  destruct (filter_relevant_jobs REMOTE_ONLY all_jobs profile already_seen)
    as [relevant_jobs|e] eqn:Hf; [|done].
  unfold mbind, result_bind.
  destruct relevant_jobs as [|j l] eqn:Hrel.
  - intros [= <-]. exists [], []. rewrite !app_nil_r.
    split_and!; [done | constructor | done | done | by left].
  - rewrite <- Hrel. unfold enrich_all.
    destruct (enrich_fold_invariant oracle store_appends profile relevant_jobs w [])
      as (enriched & -> & Hsub).
    simpl. intros Hsend. exists relevant_jobs, enriched.
    unfold send_email_digest in Hsend. rewrite Hrel in *.
    destruct enriched as [|x xs].
    + injection Hsend as <-. simpl. split_and!; [done..|by left].
    + destruct (smtp_delivers _); [|done]. injection Hsend as <-. simpl.
      split_and!; [done..|by right].
Qed.

(** X1. Whatever the oracle and the store answer, the enrichment loop keeps
    in [jobs_with_ai] exactly the pairs whose rows it has appended to the
    sheet, in the same order; the kept postings are a subsequence of the
    filtered postings; every filtered posting is requested from the oracle
    exactly once, in order; the loop sends nothing. *)
Theorem X1_enrich_all_keeps_what_it_persists
    (oracle : list Job → Job → Profile → result Ai)
    (store_appends : list Row → Row → bool)
    (profile : Profile) (w : World) (relevant_jobs : list Job) :
  sheet (enrich_all oracle store_appends profile w relevant_jobs).1
  = sheet w ++ (row_of <$> (enrich_all oracle store_appends profile w relevant_jobs).2) ∧
  (enrich_all oracle store_appends profile w relevant_jobs).2.*1
    `sublist_of` relevant_jobs ∧
  requests (enrich_all oracle store_appends profile w relevant_jobs).1
  = requests w ++ relevant_jobs ∧
  outbox (enrich_all oracle store_appends profile w relevant_jobs).1 = outbox w.
Proof.
  unfold enrich_all.
  destruct (enrich_fold_invariant oracle store_appends profile relevant_jobs w [])
    as (enriched & -> & Hsub).
  by simpl.
Qed.

(** X2. A run that returns has made at most 20 requests to the oracle and
    appended at most 20 rows, and it has sent no digest or one digest; the
    count in the subject of that digest is the number of its cards and the
    number of rows appended, at least 1 and at most 20. *)
Theorem X2_run_within_the_cap
    (oracle : list Job → Job → Profile → result Ai)
    (store_appends : list Row → Row → bool) (smtp_delivers : Digest → bool)
    (REMOTE_ONLY : bool) (sheet_id : string) (profile : Profile)
    (already_seen : gset string) (all_jobs : list Job) (w w' : World) :
  main oracle store_appends smtp_delivers REMOTE_ONLY sheet_id profile
       already_seen all_jobs w = Ok w' →
  length (requests w') ≤ length (requests w) + 20 ∧
  length (sheet w') ≤ length (sheet w) + 20 ∧
  ((length (sheet w') = length (sheet w) ∧ outbox w' = outbox w) ∨
   ∃ digest,
     outbox w' = outbox w ++ [digest] ∧
     digest_count digest = length (digest_cards digest) ∧
     length (sheet w') = length (sheet w) + digest_count digest ∧
     1 ≤ digest_count digest ≤ 20).
Proof.
  intros (relevant_jobs & enriched & Hf & Hsub & Hsheet & Hreq & Hout)%main_Ok_inv.
  assert (length relevant_jobs ≤ 20) as Hcap.
  { apply filter_relevant_jobs_unfold in Hf as (? & filtered & _ & ->).
    rewrite length_take. lia. }
  assert (length enriched ≤ 20) as Hlen.
  { apply sublist_length in Hsub. rewrite length_fmap in Hsub. lia. }
  rewrite Hsheet, Hreq, !length_app, length_fmap. split_and!; [lia | lia |].
  destruct Hout as [[-> ->] | [Hne ->]]; [left; simpl; split; [lia | done]|].
  right. exists (build_digest enriched sheet_id).
  destruct (build_digest_count enriched sheet_id) as [Hc Hcards].
  rewrite Hc, Hcards. split_and!; [done | done | done | | done].
  destruct enriched; [done | simpl; lia].
Qed.

Lemma X2_run_within_the_cap_witness :
  length (requests {| sheet := [row_of (analyst, package 50); row_of (tokyo, package 50)];
                      requests := [analyst; nowhere; tokyo];
                      outbox := [build_digest [(analyst, package 50); (tokyo, package 50)] "sheet"] |})
  ≤ length (requests empty_world) + 20.
Proof.
  apply (X2_run_within_the_cap (oracle_failing_on "rok_3") always delivers false "sheet"
           (candidate ["Data Scientist"] []) ∅ [analyst; gardener; nowhere; tokyo]
           empty_world).
  by vm_compute.
Defined.

(** X3. The rows a run appends have pairwise distinct job ids, none of
    them in the set of ids seen at the start, and each belongs to one of the
    postings handed to the run. *)
Theorem X3_run_appends_new_ids_once
    (oracle : list Job → Job → Profile → result Ai)
    (store_appends : list Row → Row → bool) (smtp_delivers : Digest → bool)
    (REMOTE_ONLY : bool) (sheet_id : string) (profile : Profile)
    (already_seen : gset string) (all_jobs : list Job) (w w' : World) :
  main oracle store_appends smtp_delivers REMOTE_ONLY sheet_id profile
       already_seen all_jobs w = Ok w' →
  ∃ persisted : list (Job * Ai),
    sheet w' = sheet w ++ (row_of <$> persisted) ∧
    NoDup (job_id <$> persisted.*1) ∧
    (∀ job, job ∈ persisted.*1 → (job_id job ∉ already_seen) ∧ job ∈ all_jobs) ∧
    persisted.*1 `sublist_of` all_jobs.
Proof.
  intros (relevant_jobs & enriched & Hf & Hsub & Hsheet & _ & _)%main_Ok_inv.
  exists enriched. split; [done|].
  apply filter_relevant_jobs_unfold in Hf as (ids & filtered & Hloop & ->).
  apply for_jobs_with_appends in Hloop as (added & Heq & Hadded & Hnd & Hfresh).
  simpl in Heq. subst filtered.
  assert (enriched.*1 `sublist_of` added) as Hsub'
    by (etrans; [exact Hsub | apply sublist_take]).
  split_and!.
  - eapply sublist_NoDup; [exact Hnd | by apply fmap_sublist].
  - intros job Hin. pose proof (elem_of_sublist _ _ _ Hin Hsub') as Hin'. split.
    + by apply Hfresh.
    + by eapply elem_of_sublist.
  - by etrans.
Qed.

Lemma X3_run_appends_new_ids_once_witness :
  ∃ persisted : list (Job * Ai),
    sheet {| sheet := [row_of (analyst, package 50); row_of (tokyo, package 50)];
             requests := [analyst; nowhere; tokyo];
             outbox := [build_digest [(analyst, package 50); (tokyo, package 50)] "sheet"] |}
    = sheet empty_world ++ (row_of <$> persisted) ∧
    NoDup (job_id <$> persisted.*1) ∧
    (∀ job, job ∈ persisted.*1 →
            (job_id job ∉ (∅ : gset string)) ∧
            job ∈ [analyst; gardener; nowhere; tokyo]) ∧
    persisted.*1 `sublist_of` [analyst; gardener; nowhere; tokyo].
Proof.
  apply (X3_run_appends_new_ids_once (oracle_failing_on "rok_3") always delivers
           false "sheet" (candidate ["Data Scientist"] []) ∅
           [analyst; gardener; nowhere; tokyo] empty_world).
  by vm_compute.
Defined.

(** X4. When every oracle call fails, or the store refuses every row, the
    run still ends normally: each filtered posting has been requested once,
    no row is appended and no digest is sent. *)
Theorem X4_run_with_nothing_enriched
    (oracle : list Job → Job → Profile → result Ai)
    (store_appends : list Row → Row → bool) (smtp_delivers : Digest → bool)
    (REMOTE_ONLY : bool) (sheet_id : string) (profile : Profile)
    (already_seen : gset string) (all_jobs relevant_jobs : list Job) (w : World) :
  filter_relevant_jobs REMOTE_ONLY all_jobs profile already_seen = Ok relevant_jobs →
  (∀ history job, ¬ is_Ok (oracle history job profile)) ∨
  (∀ rows row, store_appends rows row = false) →
  main oracle store_appends smtp_delivers REMOTE_ONLY sheet_id profile
       already_seen all_jobs w
  = Ok {| sheet := sheet w; requests := requests w ++ relevant_jobs;
          outbox := outbox w |}.
Proof.
  intros Hf Hfail.
  assert (∀ jobs w0 acc,
            foldl (enrich_one oracle store_appends profile) (w0, acc) jobs
            = ({| sheet := sheet w0; requests := requests w0 ++ jobs;
                  outbox := outbox w0 |}, acc)) as Hfold.
  { induction jobs as [|job rest IH]; intros w0 acc.
    - simpl. rewrite app_nil_r. by destruct w0.
    - cbn [foldl].
      destruct (enrich_one_cases oracle store_appends profile w0 acc job)
        as (added & -> & [-> | (ai & _ & Ho & Hs)]).
      + rewrite IH. simpl. by rewrite !app_nil_r, <- app_assoc.
      + exfalso. destruct Hfail as [Hfail | Hfail].
        * apply (Hfail (requests w0) job). by exists ai.
        * rewrite Hfail in Hs. discriminate. }
  unfold main. rewrite Hf. unfold mbind, result_bind.
  destruct relevant_jobs as [|j l] eqn:Hrel.
  - rewrite app_nil_r. by destruct w.
  - rewrite <- Hrel. unfold enrich_all. by rewrite Hfold.
Qed.

Lemma X4_run_with_nothing_enriched_witness :
  main (λ _ _ _, Raise ValueError) always delivers false "sheet"
       (candidate ["Data Scientist"] []) ∅ [analyst; gardener; nowhere; tokyo]
       empty_world
  = Ok {| sheet := sheet empty_world;
          requests := requests empty_world ++ [analyst; nowhere; tokyo];
          outbox := outbox empty_world |}.
Proof.
  apply (X4_run_with_nothing_enriched (λ _ _ _, Raise ValueError) always delivers
           false "sheet" (candidate ["Data Scientist"] []) ∅
           [analyst; gardener; nowhere; tokyo] [analyst; nowhere; tokyo] empty_world).
  - by vm_compute.
  - left. intros history job [ai Hai]. discriminate Hai.
Defined.

End RunExtras.

(** ** More on the relevance filter *)

Module FilterMore.
Import PyStr PyStrFacts Filter Spec Terms FilterFacts RelevanceFacts.

Section LoopMore.
Variable geo : Job → bool.
Variable need : nat.
Variable REMOTE_ONLY : bool.
Variable profile : Profile.
Variable already_seen : gset string.

Local Abbreviation body := (loop_body_with geo need REMOTE_ONLY profile already_seen).
Local Abbreviation loop := (for_jobs_with geo need REMOTE_ONLY profile already_seen).

Local Abbreviation passes := (passes geo need REMOTE_ONLY profile).

Lemma loop_body_with_accepts st job :
  job_id job ∉ already_seen → job_id job ∉ st.1 → passes job →
  body st job = Ok (accept st job).
Proof.
  intros Hs Hi (Hr & Hg & Hrel). unfold loop_body_with.
  assert (is_duplicate already_seen st.1 job = false) as ->
    by (by apply is_duplicate_false).
  by rewrite Hr, Hg, Hrel.
Qed.

Lemma loop_body_with_accepted st job :
  body st job = Ok (accept st job) → passes job.
Proof.
  unfold loop_body_with. pose proof (accept_changes st job) as Hne.
  destruct (is_duplicate already_seen st.1 job); [congruence|].
  destruct (remote_rejects REMOTE_ONLY job) eqn:Hr; [congruence|].
  destruct (geo job) eqn:Hg; [congruence|].
  destruct (relevant_with need profile job) as [[]|e] eqn:Hrel; simpl;
    [done | congruence | done].
Qed.

(** The loop over a prefix, then over the rest. *)
Lemma for_jobs_with_app jobs more st :
  loop (jobs ++ more) st = (st' ← loop jobs st; loop more st').
Proof.
  revert st. induction jobs as [|job rest IH]; intros st; simpl; [done|].
  destruct (body st job) as [st1|e]; simpl; [apply IH | done].
Qed.

(** Every posting the loop appends passes the tests. *)
Lemma for_jobs_with_passing jobs st st' :
  loop jobs st = Ok st' →
  ∃ added, st'.2 = st.2 ++ added ∧ ∀ job, job ∈ added → passes job.
Proof.
  revert st. induction jobs as [|job rest IH]; intros st; simpl.
  - intros [= <-]. exists []. rewrite app_nil_r. split; [done|].
    by intros ? ?%not_elem_of_nil.
  - destruct (body st job) as [st1|e] eqn:Hb; simpl; [|done].
    intros (added & Heq & Hpass)%IH.
    destruct (loop_body_with_cases _ _ _ _ _ _ _ _ Hb) as [-> | (-> & _ & _)].
    + by exists added.
    + exists (job :: added). split; [simpl in *; by rewrite Heq, <- app_assoc|].
      intros j [-> | Hj]%elem_of_cons; [|by apply Hpass].
      by apply loop_body_with_accepted with (st := st).
Qed.

(** Over postings that all pass, with fresh and distinct ids, the loop
    appends every one. *)
Lemma for_jobs_with_all_pass jobs st :
  NoDup (job_id <$> jobs) →
  (∀ job, job ∈ jobs →
          (job_id job ∉ already_seen) ∧ (job_id job ∉ st.1) ∧ passes job) →
  ∃ ids, loop jobs st = Ok (ids, st.2 ++ jobs).
Proof.
  revert st. induction jobs as [|job rest IH]; intros st Hnd Hall.
  - exists st.1. simpl. rewrite app_nil_r. by destruct st.
  - rewrite fmap_cons in Hnd. apply NoDup_cons in Hnd as [Hnot Hnd].
    destruct (Hall job) as (Hs & Hi & Hp); [by apply elem_of_cons; left|].
    simpl. rewrite (loop_body_with_accepts st job Hs Hi Hp). simpl.
    destruct (IH (accept st job) Hnd) as [ids Hids].
    + intros j Hj. destruct (Hall j) as (Hs' & Hi' & Hp'); [by apply elem_of_cons; right|].
      split_and!; [done | | done].
      simpl. intros [Heq%elem_of_singleton | Hin]%elem_of_union; [|done].
      apply Hnot. rewrite <- Heq. apply list_elem_of_fmap. by exists j.
    + exists ids. rewrite Hids. simpl. by rewrite <- app_assoc.
Qed.
End LoopMore.

Lemma lower_append a b : lower (a +:+ b) = lower a +:+ lower b.
Proof.
  induction a as [|c a IH]; [done|].
  rewrite append_cons. simpl. by rewrite IH, append_cons.
Qed.

Lemma lower_char_idemp c : lower_char (lower_char c) = lower_char c.
Proof. destruct c as [[] [] [] [] [] [] [] []]; reflexivity. Qed.

Lemma lower_idemp s : lower (lower s) = lower s.
Proof. induction s as [|c s IH]; simpl; [done | by rewrite lower_char_idemp, IH]. Qed.

Lemma index0_of_head {A} (xs : list A) :
  index0 xs = match head xs with Some x => Ok x | None => Raise IndexError end.
Proof. by destruct xs. Qed.

(** The role test reads the roles through their first words only. *)
Lemma any_role_in_first_words text roles1 roles2 :
  (λ r, head (split r)) <$> roles1 = (λ r, head (split r)) <$> roles2 →
  any_role_in text roles1 = any_role_in text roles2.
Proof.
  revert roles2. induction roles1 as [|r1 rest1 IH]; intros [|r2 rest2]; simpl;
    [done | done | done |].
  intros [= Hh Hrest]. rewrite !index0_of_head, Hh.
  destruct (head (split r2)) as [w|]; simpl; [|done].
  destruct (contains w text); [done | by apply IH].
Qed.

End FilterMore.

Section FilterExtras.
Import PyStr PyStrFacts Filter Spec Terms FilterFacts RelevanceFacts FilterMore Examples.

(** X5. Filtering is idempotent: given the list it has returned, with the
    same profile and the same set of seen ids, [filter_relevant_jobs]
    returns that list again. *)
Theorem X5_filter_idempotent
    (REMOTE_ONLY : bool) (jobs : list Job) (profile : Profile)
    (already_seen : gset string) (returned : list Job) :
  filter_relevant_jobs REMOTE_ONLY jobs profile already_seen = Ok returned →
  filter_relevant_jobs REMOTE_ONLY returned profile already_seen = Ok returned.
Proof.
  intros (ids & filtered & Hloop & ->)%filter_relevant_jobs_unfold.
  pose proof Hloop as (added & Heq & _ & Hnd & Hfresh)%for_jobs_with_appends.
  pose proof Hloop as (added' & Heq' & Hpass)%for_jobs_with_passing.
  simpl in Heq, Heq'. subst filtered. subst added'.
  destruct (for_jobs_with_all_pass geography_rejects 1 REMOTE_ONLY profile
              already_seen (take 20 added) (∅, [])) as [ids' Hids].
  - rewrite fmap_take. eapply sublist_NoDup; [exact Hnd | apply sublist_take].
  - intros job Hin.
    assert (job ∈ added) as Hin'
      by (eapply elem_of_sublist; [exact Hin | apply sublist_take]).
    destruct (Hfresh job Hin') as [Hs _]. split_and!; [done | | by apply Hpass].
    simpl. apply not_elem_of_empty.
  - unfold filter_relevant_jobs, for_jobs. rewrite Hids. simpl.
    by rewrite take_take, Nat.min_id.
Qed.

Lemma X5_filter_idempotent_witness :
  filter_relevant_jobs false [analyst; nowhere; tokyo]
    (candidate ["Data Scientist"] ["sql"]) ∅
  = Ok [analyst; nowhere; tokyo].
Proof.
  apply (X5_filter_idempotent false [analyst; gardener; analyst; nowhere; tokyo]).
  by vm_compute.
Defined.

(** X6. Postings put behind the input never change what is selected from
    the front: when the filter returns for [jobs ++ more], it returns for
    [jobs] as well, what it returns for [jobs] is a prefix of what it
    returns for [jobs ++ more], and once [jobs] alone fills the cap of 20
    the postings of [more] are not selected at all. *)
Theorem X6_filter_earlier_postings_first
    (REMOTE_ONLY : bool) (jobs more : list Job) (profile : Profile)
    (already_seen : gset string) (returned : list Job) :
  filter_relevant_jobs REMOTE_ONLY (jobs ++ more) profile already_seen = Ok returned →
  ∃ front,
    filter_relevant_jobs REMOTE_ONLY jobs profile already_seen = Ok front ∧
    front `prefix_of` returned ∧
    (length front = 20 → returned = front).
Proof.
  intros (ids & filtered & Hloop & ->)%filter_relevant_jobs_unfold.
  unfold for_jobs in Hloop. rewrite for_jobs_with_app in Hloop.
  destruct (for_jobs_with geography_rejects 1 REMOTE_ONLY profile already_seen
              jobs (∅, [])) as [[ids1 filtered1]|e] eqn:H1; [|done].
  simpl in Hloop.
  apply for_jobs_with_appends in Hloop as (added & Heq & _). simpl in Heq. subst filtered.
  exists (take 20 filtered1). split_and!.
  - unfold filter_relevant_jobs, for_jobs. by rewrite H1.
  - rewrite take_app. by apply prefix_app_r.
  - intros Hlen. rewrite take_app_le; [done|].
    rewrite length_take in Hlen. lia.
Qed.

Lemma X6_filter_earlier_postings_first_witness :
  ∃ front,
    filter_relevant_jobs false [analyst; gardener] (candidate ["Data Scientist"] ["sql"]) ∅
    = Ok front ∧
    front `prefix_of` [analyst; nowhere; tokyo] ∧
    (length front = 20 → [analyst; nowhere; tokyo] = front).
Proof.
  apply (X6_filter_earlier_postings_first false [analyst; gardener]
           [analyst; nowhere; tokyo]).
  by vm_compute.
Defined.

(** X7. A profile with no target roles and no skills, the keys absent or
    their lists empty, selects nothing: the filter returns the empty list
    for every input. *)
Theorem X7_empty_profile_selects_nothing
    (REMOTE_ONLY : bool) (jobs : list Job) (profile : Profile)
    (already_seen : gset string) :
  get_list (target_roles profile) = [] →
  get_list (skills profile) = [] →
  filter_relevant_jobs REMOTE_ONLY jobs profile already_seen = Ok [].
Proof.
  intros Hroles Hskills.
  assert (∀ job, relevant profile job = Ok false) as Hrel.
  { intros job. unfold relevant, relevant_with, lowered_roles, lowered_skills.
    by rewrite Hroles, Hskills. }
  assert (∀ st, for_jobs REMOTE_ONLY profile already_seen jobs st = Ok st) as Hloop.
  { unfold for_jobs. induction jobs as [|job rest IH]; intros st; simpl; [done|].
    unfold loop_body_with. fold relevant. rewrite Hrel.
    destruct (is_duplicate already_seen st.1 job), (remote_rejects REMOTE_ONLY job),
      (geography_rejects job); simpl; apply IH. }
  unfold filter_relevant_jobs. by rewrite Hloop.
Qed.

Lemma X7_empty_profile_selects_nothing_witness :
  filter_relevant_jobs false [analyst; gardener; nowhere; tokyo]
    {| target_roles := None; skills := Some []; resume_text := "" |} ∅ = Ok [].
Proof.
  by apply (X7_empty_profile_selects_nothing false [analyst; gardener; nowhere; tokyo]
              {| target_roles := None; skills := Some []; resume_text := "" |} ∅).
Defined.

(** X8. An empty string among the first eight skills is a substring of
    every text: with such a profile every posting that passes the
    duplicate, remote-only and geography checks, and whose role test
    returns, is accepted. *)
Theorem X8_empty_skill_matches_every_posting
    (REMOTE_ONLY : bool) (profile : Profile) (already_seen : gset string)
    (st : loop_state) (job : Job) :
  EmptyString ∈ take 8 (get_list (skills profile)) →
  reaches_relevance_check REMOTE_ONLY already_seen st.1 job →
  is_Ok (relevant profile job) →
  loop_body REMOTE_ONLY profile already_seen st job = Ok (accept st job).
Proof.
  intros Hin Hreach [b Hb]. rewrite (loop_body_reaching _ _ _ _ _ Hreach), Hb.
  assert (b = true) as ->; [|done].
  apply (relevant_spec _ _ _ Hb). right. exists EmptyString. split.
  - unfold lowered_skills. apply list_elem_of_fmap. by exists EmptyString.
  - by exists EmptyString, (job_text job).
Qed.

Lemma X8_empty_skill_matches_every_posting_witness :
  loop_body false (candidate [] ["cobol"; ""]) ∅ (∅, []) gardener
  = Ok (accept (∅, []) gardener).
Proof.
  apply (X8_empty_skill_matches_every_posting false (candidate [] ["cobol"; ""])
           ∅ (∅, []) gardener).
  - vm_compute. apply list_elem_of_further, list_elem_of_here.
  - by vm_compute.
  - exists true. by vm_compute.
Defined.

(** X9. The filter reads a profile only through the first words of its
    lower-cased target roles and through its first eight lower-cased
    skills: two profiles that agree on these give the same result, list or
    exception, on every input. *)
Theorem X9_filter_reads_first_words_and_top_skills
    (REMOTE_ONLY : bool) (jobs : list Job) (profile1 profile2 : Profile)
    (already_seen : gset string) :
  (λ r, head (split r)) <$> lowered_roles profile1
  = (λ r, head (split r)) <$> lowered_roles profile2 →
  lower <$> take 8 (get_list (skills profile1))
  = lower <$> take 8 (get_list (skills profile2)) →
  filter_relevant_jobs REMOTE_ONLY jobs profile1 already_seen
  = filter_relevant_jobs REMOTE_ONLY jobs profile2 already_seen.
Proof.
  intros Hroles Hskills.
  assert (∀ job, relevant_with 1 profile1 job = relevant_with 1 profile2 job) as Hrel.
  { intros job. unfold relevant_with, lowered_skills. rewrite Hskills.
    by rewrite (any_role_in_first_words _ _ _ Hroles). }
  assert (∀ st, for_jobs REMOTE_ONLY profile1 already_seen jobs st
                = for_jobs REMOTE_ONLY profile2 already_seen jobs st) as Hloop.
  { unfold for_jobs. induction jobs as [|job rest IH]; intros st; simpl; [done|].
    unfold loop_body_with. rewrite Hrel.
    destruct (is_duplicate already_seen st.1 job), (remote_rejects REMOTE_ONLY job),
      (geography_rejects job); simpl; try apply IH.
    destruct (relevant_with 1 profile2 job) as [[]|e]; simpl; [apply IH..|done]. }
  unfold filter_relevant_jobs. by rewrite Hloop.
Qed.

Lemma X9_filter_reads_first_words_and_top_skills_witness :
  filter_relevant_jobs false [analyst; gardener; nowhere; tokyo]
    (candidate ["Data Scientist"] ["a"; "b"; "c"; "d"; "e"; "f"; "g"; "h"; "roses"]) ∅
  = filter_relevant_jobs false [analyst; gardener; nowhere; tokyo]
      (candidate ["  DATA entry clerk"] ["A"; "B"; "C"; "D"; "E"; "F"; "G"; "H"]) ∅.
Proof.
  by apply (X9_filter_reads_first_words_and_top_skills false
              [analyst; gardener; nowhere; tokyo]
              (candidate ["Data Scientist"] ["a"; "b"; "c"; "d"; "e"; "f"; "g"; "h"; "roses"])
              (candidate ["  DATA entry clerk"] ["A"; "B"; "C"; "D"; "E"; "F"; "G"; "H"]) ∅).
Defined.

(** X10. The tests of an iteration do not see letter case: two postings
    whose titles, descriptions and locations agree once lower-cased, and
    whose remote flags agree, get the same remote-only, geography and
    relevance verdicts. *)
Theorem X10_verdicts_ignore_letter_case
    (REMOTE_ONLY : bool) (profile : Profile) (job1 job2 : Job) :
  lower (title job1) = lower (title job2) →
  lower (description job1) = lower (description job2) →
  lower (location job1) = lower (location job2) →
  remote job1 = remote job2 →
  remote_rejects REMOTE_ONLY job1 = remote_rejects REMOTE_ONLY job2 ∧
  geography_rejects job1 = geography_rejects job2 ∧
  relevant profile job1 = relevant profile job2.
Proof.
  intros Ht Hd Hl Hr. split_and!.
  - unfold remote_rejects. by rewrite Hr.
  - unfold geography_rejects, geography_rejects_with. by rewrite Hl.
  - unfold relevant, relevant_with, job_text.
    by rewrite !lower_append, Ht, Hd.
Qed.

Lemma X10_verdicts_ignore_letter_case_witness :
  remote_rejects false analyst
  = remote_rejects false (posting "rok_9" "DATA ANALYST" "REMOTE" "reports AND dashboards") ∧
  geography_rejects analyst
  = geography_rejects (posting "rok_9" "DATA ANALYST" "REMOTE" "reports AND dashboards") ∧
  relevant (candidate ["Data Scientist"] []) analyst
  = relevant (candidate ["Data Scientist"] [])
      (posting "rok_9" "DATA ANALYST" "REMOTE" "reports AND dashboards").
Proof.
  by apply (X10_verdicts_ignore_letter_case false (candidate ["Data Scientist"] [])
              analyst (posting "rok_9" "DATA ANALYST" "REMOTE" "reports AND dashboards")).
Defined.

End FilterExtras.

(** ** More on Python strings *)

Module PyStrMore.
Import PyStr PyStrFacts Terms.

Lemma slice_to_length n s : String.length (slice_to n s) ≤ n.
Proof.
  unfold slice_to. revert n. induction s as [|c s IH]; intros [|n]; simpl; try lia.
  specialize (IH n). lia.
Qed.

Lemma slice_to_prefix n s : ∃ rest, s = slice_to n s +:+ rest.
Proof.
  unfold slice_to. revert n. induction s as [|c s IH]; intros [|n]; simpl.
  - by exists EmptyString.
  - by exists EmptyString.
  - by exists (String c s).
  - destruct (IH n) as [rest Hrest]. exists rest.
    by rewrite append_cons, <- Hrest.
Qed.

Lemma contains_slice_to t n s :
  contains t (slice_to n s) = true → contains t s = true.
Proof.
  rewrite !contains_spec. intros (pre & post & H).
  destruct (slice_to_prefix n s) as [rest Hrest].
  exists pre, (post +:+ rest). by rewrite Hrest, H, !append_assoc.
Qed.

Lemma contains_cons t c s : contains t s = true → contains t (String c s) = true.
Proof. intros H. cbn [contains]. rewrite H. apply orb_true_r. Qed.

Lemma startswith_contains t s : startswith t s = true → contains t s = true.
Proof. intros H. destruct s; cbn [contains]; by rewrite H. Qed.

Lemma startswith_space t X :
  spaceless t = true → startswith t (String " " X) = true → t = EmptyString.
Proof.
  destruct t as [|a t]; [done|]. simpl.
  destruct (Ascii.eqb_spec a " ") as [->|Hne]; [done|].
  intros _. destruct (Ascii.eqb_spec a " "); [done | discriminate].
Qed.

Section Replace.
Variable old : string.

(** Where the output of [replace] begins with a spaceless string, so does
    the input: a replacement always begins with the space put in. *)
Lemma replace_startswith p s :
  spaceless p = true →
  startswith p (replace_from 0 old " " s) = true → startswith p s = true.
Proof.
  revert p. induction s as [|c s IH]; intros p Hp; [done|].
  cbn [replace_from].
  destruct (truthy old && startswith old (String c s)).
  - rewrite append_cons, append_nil_l. intros H.
    by rewrite (startswith_space _ _ Hp H).
  - destruct p as [|a p]; [done|]. simpl in *.
    destruct (Ascii.eqb a c); [|done].
    apply IH. by apply andb_true_iff in Hp as [_ Hp].
Qed.

(** [replace] puts no occurrence of a spaceless string into a text. *)
Lemma replace_from_adds_none t skip s :
  spaceless t = true →
  contains t (replace_from skip old " " s) = true → contains t s = true.
Proof.
  intros Ht. revert skip. induction s as [|c s IH]; intros skip; [by destruct skip|].
  cbn [replace_from]. destruct skip as [|k].
  - destruct (truthy old && startswith old (String c s)) eqn:Hm.
    + rewrite append_cons, append_nil_l. cbn [contains].
      intros [H | H]%orb_true_iff.
      * rewrite (startswith_space _ _ Ht H). by destruct s.
      * apply contains_cons. by apply IH in H.
    + intros H. cbn [contains] in H. apply orb_true_iff in H as [H | H].
      * apply startswith_contains.
        apply (replace_startswith t (String c s) Ht).
        cbn [replace_from]. by rewrite Hm.
      * apply contains_cons. by apply IH in H.
  - intros H. apply contains_cons. by apply IH in H.
Qed.

(** After [replace] no occurrence of the replaced string is left. *)
Lemma replace_from_leaves_none skip s :
  truthy old = true → spaceless old = true →
  contains old (replace_from skip old " " s) = false.
Proof.
  intros Hne Hsp. revert skip. induction s as [|c s IH]; intros skip.
  - destruct skip; simpl; rewrite orb_false_r; by destruct old.
  - cbn [replace_from]. destruct skip as [|k]; [|apply IH].
    destruct (truthy old && startswith old (String c s)) eqn:Hm.
    + rewrite append_cons, append_nil_l. cbn [contains]. rewrite IH, orb_false_r.
      destruct (startswith old (String " " _)) eqn:Hs; [|done].
      apply (startswith_space _ _ Hsp) in Hs. by rewrite Hs in Hne.
    + cbn [contains]. rewrite IH, orb_false_r.
      destruct (startswith old (String c (replace_from 0 old " " s))) eqn:Hs; [|done].
      assert (startswith old (String c s) = true) as Hs'.
      { apply (replace_startswith old (String c s) Hsp).
        cbn [replace_from]. by rewrite Hm. }
      by rewrite Hne, Hs' in Hm.
Qed.
End Replace.

(** After replacing each of [tags] in turn by a space, none of them is
    left, when none of them holds a space or is empty. *)
Lemma strip_leaves_none tags desc :
  Forall (λ tag, truthy tag = true ∧ spaceless tag = true) tags →
  Forall (λ tag, contains tag (foldl (λ d tag, replace tag " " d) desc tags) = false)
         tags.
Proof.
  revert desc. induction tags as [|tag tags IH] using rev_ind; intros desc Hall;
    [constructor|].
  apply Forall_app in Hall as [Hall Hlast]. apply Forall_singleton in Hlast as [Hne Hsp].
  rewrite foldl_app. simpl. apply Forall_app. split.
  - specialize (IH desc Hall). rewrite Forall_forall in IH, Hall.
    apply Forall_forall. intros t Ht.
    destruct (contains t (replace tag " " _)) eqn:Hc; [|done].
    apply (replace_from_adds_none tag t 0) in Hc; [|by apply Hall].
    by rewrite IH in Hc.
  - apply Forall_singleton. by apply replace_from_leaves_none.
Qed.

End PyStrMore.

(** ** More on the adapters *)

Module AdapterMore.
Import PyStr PyStrFacts Terms Filter Adapters AdapterFacts PyStrMore.

Section Entries.
Variable fromisoformat : string → option Z.
Variable isoformat : Z → string.

(** A payload with an element that raises makes the loop raise. *)
Lemma collect_raise {R} (entry : R → result (option Job)) data raw e :
  raw ∈ data → entry raw = Raise e → ∃ e', collect entry data = Raise e'.
Proof.
  induction data as [|x rest IH]; [by intros ?%not_elem_of_nil|].
  intros [-> | Hin]%elem_of_cons Hraise; simpl.
  - rewrite Hraise. by exists e.
  - destruct (entry x) as [o|e0]; simpl; [|by exists e0].
    destruct (IH Hin Hraise) as [e' ->]. by exists e'.
Qed.

Lemma guarded_raise {R} (entry : R → result (option Job)) data raw e :
  raw ∈ data → entry raw = Raise e → guarded entry (Ok data) = [].
Proof.
  intros Hin Hraise. unfold guarded. simpl.
  by destruct (collect_raise entry data raw e Hin Hraise) as [e' ->].
Qed.

(** The output holds at most one posting for each element of the payload. *)
Lemma collect_length {R} (entry : R → result (option Job)) data jobs :
  collect entry data = Ok jobs → length jobs ≤ length data.
Proof.
  revert jobs. induction data as [|x rest IH]; intros jobs; simpl.
  - by intros [= <-].
  - destruct (entry x) as [o|e0]; simpl; [|done].
    destruct (collect entry rest) as [jobs'|e1]; simpl; [|done].
    intros [= <-]. specialize (IH jobs' eq_refl). destruct o; simpl; lia.
Qed.

(** The fields of a posting that RemoteOK's loop appends. *)
Lemma remoteok_entry_fields now raw job :
  remoteok_entry fromisoformat now raw = Ok (Some job) →
  ∃ e, raw = Some e ∧
       truthy (get_str (rok_id e) "") = true ∧
       job_id job = "rok_" +:+ get_str (rok_id e) "" ∧
       location job = "Remote" ∧ remote job = true ∧
       (∃ d, description job = slice_to 3000 d) ∧
       source job = "RemoteOK".
Proof.
  unfold remoteok_entry. destruct raw as [e|]; [|done].
  destruct (truthy (get_str (rok_id e) "")) eqn:Hid; simpl; [|done].
  destruct (if truthy (get_str (rok_date e) "") then _ else _) as [posted|];
    simpl; [|done].
  destruct (posted <? cutoff_of now)%Z; [done|].
  intros [= <-]. exists e. simpl. split_and!; try done. by eexists.
Qed.

(** The fields of a posting that Arbeitnow's loop appends. *)
Lemma arbeitnow_entry_fields now raw job :
  arbeitnow_entry isoformat now raw = Ok (Some job) →
  ∃ slug, arb_slug raw = Some slug ∧
          job_id job = "arb_" +:+ slug ∧
          truthy (location job) = true ∧
          (∃ d, description job = slice_to 3000 d) ∧
          source job = "Arbeitnow".
Proof.
  unfold arbeitnow_entry.
  destruct (1000000 * default 0 (arb_created_at raw) <? cutoff_of now)%Z; [done|].
  destruct (arb_slug raw) as [slug|]; simpl; [|done].
  destruct (arb_created_at raw) as [created|]; simpl; [|done].
  intros [= <-]. exists slug. simpl. split_and!; try done; [|by eexists].
  unfold get_or. destruct (arb_location raw) as [l|].
  - destruct (truthy l) eqn:Hl; [done|]. by destruct (default false (arb_remote raw)).
  - by destruct (default false (arb_remote raw)).
Qed.

(** The fields of a posting that The Muse's loop appends. *)
Lemma themuse_entry_fields now raw job :
  themuse_entry fromisoformat now raw = Ok (Some job) →
  ∃ id, muse_id raw = Some id ∧
        job_id job = "muse_" +:+ id ∧
        truthy (location job) = true ∧
        description job
        = slice_to 3000 (strip_markup (get_or (muse_contents raw) "")) ∧
        source job = "The Muse".
Proof.
  unfold themuse_entry.
  destruct (if truthy (get_str (muse_publication_date raw) "") then _ else _)
    as [[]|]; simpl; [done | | done].
  destruct (muse_id raw) as [id|]; simpl; [|done].
  intros [= <-]. exists id. simpl. split_and!; try done.
  by destruct (truthy (join ", " (default [] (muse_locations raw)))) eqn:Hl.
Qed.
End Entries.

End AdapterMore.

Section AdapterExtras.
Import PyStr PyStrFacts Terms Filter Adapters AdapterFacts PyStrMore AdapterMore Examples.

(** X11. An adapter loses its whole output to one failure: when the request
    fails, or when any one element of the payload raises, the adapter
    returns the empty list, not the postings of the other elements. For
    RemoteOK an element with an id and a non-empty date that
    [fromisoformat] rejects is such an element. *)
Theorem X11_one_failure_empties_the_adapter
    (fromisoformat : string → option Z) (isoformat : Z → string) (now : Z) :
  (∀ e, fetch_remoteok_jobs fromisoformat now (Raise e) = [] ∧
        fetch_arbeitnow_jobs isoformat now (Raise e) = [] ∧
        fetch_themuse_jobs fromisoformat now (Raise e) = []) ∧
  (∀ data raw e, raw ∈ data → remoteok_entry fromisoformat now raw = Raise e →
                 fetch_remoteok_jobs fromisoformat now (Ok data) = []) ∧
  (∀ data raw e, raw ∈ data → arbeitnow_entry isoformat now raw = Raise e →
                 fetch_arbeitnow_jobs isoformat now (Ok data) = []) ∧
  (∀ data raw e, raw ∈ data → themuse_entry fromisoformat now raw = Raise e →
                 fetch_themuse_jobs fromisoformat now (Ok data) = []) ∧
  (∀ data entry,
     Some entry ∈ data →
     truthy (get_str (rok_id entry) "") = true →
     truthy (get_str (rok_date entry) "") = true →
     fromisoformat (replace_char "Z" "+00:00" (get_str (rok_date entry) "")) = None →
     fetch_remoteok_jobs fromisoformat now (Ok data) = []).
Proof.
  split_and!.
  - done.
  - intros data raw e. apply guarded_raise.
  - intros data raw e. apply guarded_raise.
  - intros data raw e. apply guarded_raise.
  - intros data entry Hin Hid Hdate Hparse.
    apply (guarded_raise _ data (Some entry) ValueError Hin).
    unfold remoteok_entry, parse_date. by rewrite Hid, Hdate, Hparse.
Qed.

Lemma X11_one_failure_empties_the_adapter_witness :
  fetch_remoteok_jobs sample_fromisoformat sample_now
    (Ok [remoteok_raw "101" "2024-05-02T00:00:00Z"; remoteok_raw "103" "yesterday"])
  = [] ∧
  fetch_remoteok_jobs sample_fromisoformat sample_now
    (Ok [remoteok_raw "101" "2024-05-02T00:00:00Z"])
  ≠ [].
Proof.
  split; [|by vm_compute].
  destruct (X11_one_failure_empties_the_adapter sample_fromisoformat sample_isoformat
              sample_now) as (_ & _ & _ & _ & H).
  apply (H _ {| rok_id := Some "103"; rok_date := Some "yesterday";
                rok_position := Some "Data Analyst"; rok_company := None;
                rok_description := Some "<p>Reports</p>"; rok_url := None;
                rok_apply_url := None; rok_salary := None; rok_tags := None |}).
  - apply list_elem_of_further, list_elem_of_here.
  - reflexivity.
  - reflexivity.
  - reflexivity.
Defined.

(** X12. An element without a date passes the recency test whatever the
    clock says: RemoteOK keeps an element that has an id and no date, or an
    empty one, and The Muse keeps an element that has an id and no
    publication date; the posting gets the empty string as [posted_at]. *)
Theorem X12_undated_elements_are_kept
    (fromisoformat : string → option Z) (now : Z)
    (rok : RemoteOKEntry) (muse : MuseEntry) (id : string) :
  truthy (get_str (rok_id rok) "") = true →
  truthy (get_str (rok_date rok) "") = false →
  muse_id muse = Some id →
  truthy (get_str (muse_publication_date muse) "") = false →
  (∃ job, remoteok_entry fromisoformat now (Some rok) = Ok (Some job) ∧
          posted_at job = EmptyString ∧
          job_id job = "rok_" +:+ get_str (rok_id rok) "") ∧
  (∃ job, themuse_entry fromisoformat now muse = Ok (Some job) ∧
          posted_at job = EmptyString ∧ job_id job = "muse_" +:+ id).
Proof.
  intros Hid Hdate Hmid Hpub. split.
  - unfold remoteok_entry. rewrite Hid, Hdate. simpl.
    assert ((now <? cutoff_of now)%Z = false) as ->
      by (apply Z.ltb_ge; unfold cutoff_of, hours_24; lia).
    eexists. split; [done|]. simpl. split; [|done].
    by apply truthy_false in Hdate.
  - unfold themuse_entry. rewrite Hpub, Hmid. simpl.
    eexists. split; [done|]. simpl. split; [|done].
    by apply truthy_false in Hpub.
Qed.

Lemma X12_undated_elements_are_kept_witness :
  (∃ job,
     remoteok_entry sample_fromisoformat sample_now
       (Some {| rok_id := Some "104"; rok_date := None;
                rok_position := Some "Data Analyst"; rok_company := None;
                rok_description := None; rok_url := None;
                rok_apply_url := None; rok_salary := None; rok_tags := None |})
     = Ok (Some job) ∧
     posted_at job = EmptyString ∧ job_id job = "rok_" +:+ "104") ∧
  (∃ job,
     themuse_entry sample_fromisoformat sample_now
       {| muse_id := Some "9"; muse_name := None; muse_company := None;
          muse_locations := None; muse_publication_date := Some "";
          muse_contents := None; muse_landing_page := None;
          muse_categories := None |}
     = Ok (Some job) ∧
     posted_at job = EmptyString ∧ job_id job = "muse_" +:+ "9").
Proof.
  by apply (X12_undated_elements_are_kept sample_fromisoformat sample_now
              {| rok_id := Some "104"; rok_date := None;
                 rok_position := Some "Data Analyst"; rok_company := None;
                 rok_description := None; rok_url := None;
                 rok_apply_url := None; rok_salary := None; rok_tags := None |}
              {| muse_id := Some "9"; muse_name := None; muse_company := None;
                 muse_locations := None; muse_publication_date := Some "";
                 muse_contents := None; muse_landing_page := None;
                 muse_categories := None |} "9").
Defined.



(** X14. The ids of the three adapters cannot collide: a RemoteOK id begins
    with [rok_], an Arbeitnow id with [arb_], a Muse id with [muse_], so
    postings of different adapters always have different ids. *)
Theorem X14_provider_ids_are_disjoint
    (fromisoformat : string → option Z) (isoformat : Z → string)
    (now1 now2 now3 : Z)
    (r1 : result (list (option RemoteOKEntry)))
    (r2 : result (list ArbeitnowEntry))
    (r3 : result (list MuseEntry)) (job1 job2 job3 : Job) :
  job1 ∈ fetch_remoteok_jobs fromisoformat now1 r1 →
  job2 ∈ fetch_arbeitnow_jobs isoformat now2 r2 →
  job3 ∈ fetch_themuse_jobs fromisoformat now3 r3 →
  startswith "rok_" (job_id job1) = true ∧
  startswith "arb_" (job_id job2) = true ∧
  startswith "muse_" (job_id job3) = true ∧
  job_id job1 ≠ job_id job2 ∧ job_id job1 ≠ job_id job3 ∧
  job_id job2 ≠ job_id job3.
Proof.
  intros (d1 & raw1 & _ & _ & H1)%guarded_elem (d2 & raw2 & _ & _ & H2)%guarded_elem
         (d3 & raw3 & _ & _ & H3)%guarded_elem.
  apply remoteok_entry_fields in H1 as (e & _ & _ & -> & _).
  apply arbeitnow_entry_fields in H2 as (slug & _ & -> & _).
  apply themuse_entry_fields in H3 as (id & _ & -> & _).
  split_and!; try done; intros H; rewrite !append_cons in H; discriminate H.
Qed.

Lemma X14_provider_ids_are_disjoint_witness :
  startswith "rok_" "rok_101" = true ∧
  startswith "arb_" "arb_dev" = true ∧
  startswith "muse_" "muse_7" = true ∧
  "rok_101" ≠ "arb_dev" ∧ "rok_101" ≠ "muse_7" ∧ "arb_dev" ≠ "muse_7".
Proof.
  assert (∃ j1 j2 j3,
            j1 ∈ fetch_remoteok_jobs sample_fromisoformat sample_now sample_remoteok ∧
            j2 ∈ fetch_arbeitnow_jobs sample_isoformat sample_now sample_arbeitnow ∧
            j3 ∈ fetch_themuse_jobs sample_fromisoformat sample_now sample_themuse ∧
            job_id j1 = "rok_101" ∧ job_id j2 = "arb_dev" ∧ job_id j3 = "muse_7")
    as (j1 & j2 & j3 & H1 & H2 & H3 & E1 & E2 & E3).
  { eexists _, _, _. split_and!; [apply list_elem_of_here.. | | |]; reflexivity. }
  rewrite <- E1, <- E2, <- E3.
  by apply (X14_provider_ids_are_disjoint sample_fromisoformat sample_isoformat
              sample_now sample_now sample_now
              sample_remoteok sample_arbeitnow sample_themuse).
Defined.

(** X15. No adapter returns a posting whose description is longer than
    3000 characters. *)
Theorem X15_descriptions_at_most_3000
    (fromisoformat : string → option Z) (isoformat : Z → string)
    (now1 now2 now3 : Z)
    (r1 : result (list (option RemoteOKEntry)))
    (r2 : result (list ArbeitnowEntry))
    (r3 : result (list MuseEntry)) :
  Forall (λ job, String.length (description job) ≤ 3000)
         (all_jobs fromisoformat isoformat now1 now2 now3 r1 r2 r3).
Proof.
  unfold all_jobs. rewrite !Forall_app. split_and!; apply Forall_forall; intros job.
  - intros (d & raw & _ & _ & H)%guarded_elem.
    apply remoteok_entry_fields in H as (e & _ & _ & _ & _ & _ & [x ->] & _).
    apply slice_to_length.
  - intros (d & raw & _ & _ & H)%guarded_elem.
    apply arbeitnow_entry_fields in H as (slug & _ & _ & _ & [x ->] & _).
    apply slice_to_length.
  - intros (d & raw & _ & _ & H)%guarded_elem.
    apply themuse_entry_fields in H as (id & _ & _ & _ & -> & _).
    apply slice_to_length.
Qed.

(** X16. The description of a posting of The Muse holds none of the eleven
    markup tokens: replacing them in turn by a space brings none of them
    back, and cutting the text at 3000 characters does not either. *)
Theorem X16_muse_descriptions_hold_no_markup
    (fromisoformat : string → option Z) (now : Z)
    (r3 : result (list MuseEntry)) :
  Forall (λ job, Forall (λ tag, contains tag (description job) = false) muse_markup)
         (fetch_themuse_jobs fromisoformat now r3).
Proof.
  apply Forall_forall. intros job (d & raw & _ & _ & H)%guarded_elem.
  apply themuse_entry_fields in H as (id & _ & _ & _ & -> & _).
  assert (Forall (λ tag, truthy tag = true ∧ spaceless tag = true) muse_markup) as Htags
    by (by repeat constructor).
  pose proof (strip_leaves_none muse_markup (get_or (muse_contents raw) "") Htags)
    as Hnone.
  fold (strip_markup (get_or (muse_contents raw) "")) in Hnone.
  eapply Forall_impl; [exact Hnone|]. simpl. intros tag Htag.
  destruct (contains tag (slice_to 3000 _)) eqn:Hc; [|done].
  apply contains_slice_to in Hc. by rewrite Htag in Hc.
Qed.

(** X17. A posting of RemoteOK is never left out by the remote-only test or
    by the geography test, and no adapter returns a posting with an empty
    location, so the geography test is never skipped for want of one. *)
Theorem X17_adapter_locations
    (fromisoformat : string → option Z) (isoformat : Z → string)
    (now1 now2 now3 : Z)
    (r1 : result (list (option RemoteOKEntry)))
    (r2 : result (list ArbeitnowEntry))
    (r3 : result (list MuseEntry)) (REMOTE_ONLY : bool) :
  Forall (λ job, remote_rejects REMOTE_ONLY job = false ∧ geography_rejects job = false)
         (fetch_remoteok_jobs fromisoformat now1 r1) ∧
  Forall (λ job, location job ≠ EmptyString)
         (all_jobs fromisoformat isoformat now1 now2 now3 r1 r2 r3).
Proof.
  assert (∀ job, job ∈ fetch_remoteok_jobs fromisoformat now1 r1 →
                 location job = "Remote" ∧ remote job = true) as Hrok.
  { intros job (d & raw & _ & _ & H)%guarded_elem.
    by apply remoteok_entry_fields in H as (e & _ & _ & _ & ? & ? & _). }
  split.
  - apply Forall_forall. intros job [Hl Hr]%Hrok.
    unfold remote_rejects, geography_rejects, geography_rejects_with.
    rewrite Hl, Hr. split; [apply andb_false_r | by vm_compute].
  - unfold all_jobs. rewrite !Forall_app. split_and!; apply Forall_forall; intros job.
    + intros [Hl _]%Hrok. by rewrite Hl.
    + intros (d & raw & _ & _ & H)%guarded_elem.
      apply arbeitnow_entry_fields in H as (slug & _ & _ & Hl & _).
      intros E. by rewrite E in Hl.
    + intros (d & raw & _ & _ & H)%guarded_elem.
      apply themuse_entry_fields in H as (id & _ & _ & Hl & _).
      intros E. by rewrite E in Hl.
Qed.

End AdapterExtras.

(** ** The start of the run and the whole run *)

Module StartupFacts.
Import PyStr PyStrFacts Terms Filter Adapters Pipeline Startup.
Import AdapterFacts AdapterMore PyStrMore FilterFacts.

(** Reading one record never raises: the lookup is guarded by the test. *)
Lemma seen_id_of_ok r :
  seen_id_of r = Ok (if truthy_value (r !! "job_id") then r !! "job_id" else None).
Proof.
  unfold seen_id_of. destruct (r !! "job_id") as [[s|z]|]; simpl;
    [by destruct (truthy s) | by destruct (z =? 0)%Z | done].
Qed.

Lemma seen_ids_of_ok rows :
  ∃ ids, seen_ids_of rows = Ok ids ∧
         ∀ v, v ∈ ids ↔ truthy_value (Some v) = true ∧
                        ∃ r, r ∈ rows ∧ r !! "job_id" = Some v.
Proof.
  induction rows as [|r rest (ids & Hids & Hmem)]; simpl.
  - exists ∅. split; [done|]. intros v. split; [by intros ?%not_elem_of_empty|].
    by intros (_ & r & ?%not_elem_of_nil & _).
  - rewrite seen_id_of_ok, Hids. simpl.
    destruct (truthy_value (r !! "job_id")) eqn:Ht.
    + destruct (r !! "job_id") as [v0|] eqn:E; [|done].
      exists ({[ v0 ]} ∪ ids). split; [done|]. intros v.
      rewrite elem_of_union, elem_of_singleton, Hmem. split.
      * intros [-> | (Hv & r' & Hr' & Hl)].
        -- split; [done|]. exists r. split; [by apply elem_of_cons; left | done].
        -- split; [done|]. exists r'. split; [by apply elem_of_cons; right | done].
      * intros (Hv & r' & [-> | Hr']%elem_of_cons & Hl).
        -- left. congruence.
        -- right. split; [done|]. by exists r'.
    + exists ids. split; [done|]. intros v. rewrite Hmem. split.
      * intros (Hv & r' & Hr' & Hl). split; [done|].
        exists r'. split; [by apply elem_of_cons; right | done].
      * intros (Hv & r' & [-> | Hr']%elem_of_cons & Hl).
        -- rewrite Hl in Ht. change (truthy_value (Some v) = true) in Hv. congruence.
        -- split; [done|]. by exists r'.
Qed.

Section Fresh.
Variable fromisoformat : string → option Z.
Variable isoformat : Z → string.
Hypothesis fromisoformat_empty : fromisoformat EmptyString = None.

End Fresh.

End StartupFacts.

Section StartupExtras.
Import PyStr PyStrFacts Terms Filter Adapters Pipeline Startup Spec.
Import AdapterFacts AdapterMore PyStrMore FilterFacts RelevanceFacts SortFacts.
Import RunInvariants StartupFacts Examples.

(** X18. The query for Arbeitnow is the first target role as the profile
    gives it; it is "software engineer" only when the profile has no
    [target_roles] key. With the key present and its list empty the default
    does not apply: line 477 raises [IndexError] and the run ends there,
    although [filter_relevant_jobs] itself returns for such a profile on
    every input. *)
Theorem X18_primary_role_of_an_empty_list
    (fromisoformat : string → option Z) (isoformat : Z → string)
    (oracle : list Job → Job → Profile → result Ai)
    (store_appends : list Row → Row → bool) (smtp_delivers : Digest → bool)
    (REMOTE_ONLY : bool) (sheet_id : string) (profile : Profile)
    (already_seen : gset string) (now1 now2 now3 : Z)
    (r1 : result (list (option RemoteOKEntry)))
    (r2 : string → result (list ArbeitnowEntry))
    (r3 : result (list MuseEntry)) (w : World) :
  (target_roles profile = None → primary_role profile = Ok "software engineer") ∧
  (∀ role rest, target_roles profile = Some (role :: rest) →
                primary_role profile = Ok role) ∧
  (target_roles profile = Some [] →
   main_from_fetch fromisoformat isoformat oracle store_appends smtp_delivers
     REMOTE_ONLY sheet_id profile already_seen now1 now2 now3 r1 r2 r3 w
   = Raise IndexError ∧
   ∀ jobs, is_Ok (filter_relevant_jobs REMOTE_ONLY jobs profile already_seen)).
Proof.
  unfold main_from_fetch, primary_role. split_and!.
  - by intros ->.
  - by intros role rest ->.
  - intros Hroles. rewrite Hroles. split; [done|]. intros jobs.
    unfold filter_relevant_jobs, for_jobs.
    destruct (for_jobs_with_total geography_rejects 1 REMOTE_ONLY profile already_seen
                jobs (∅, [])) as [st ->]; [|by eexists].
    intros role. rewrite Hroles. by intros ?%not_elem_of_nil.
Qed.

Lemma X18_primary_role_of_an_empty_list_witness :
  main_from_fetch sample_fromisoformat sample_isoformat
    (oracle_failing_on "rok_3") always delivers false "sheet"
    (candidate [] ["sql"]) ∅ sample_now sample_now sample_now
    sample_remoteok (λ _, sample_arbeitnow) sample_themuse empty_world
  = Raise IndexError ∧
  ∀ jobs, is_Ok (filter_relevant_jobs false jobs (candidate [] ["sql"]) ∅).
Proof.
  by apply (X18_primary_role_of_an_empty_list sample_fromisoformat sample_isoformat
              (oracle_failing_on "rok_3") always delivers false "sheet"
              (candidate [] ["sql"]) ∅ sample_now sample_now sample_now
              sample_remoteok (λ _, sample_arbeitnow) sample_themuse empty_world).
Defined.

(** The rows a run appends, as postings. *)
Lemma main_Ok_persisted oracle store_appends smtp_delivers REMOTE_ONLY sheet_id
    profile already_seen all_jobs w w' :
  main oracle store_appends smtp_delivers REMOTE_ONLY sheet_id profile
       already_seen all_jobs w = Ok w' →
  ∃ persisted : list (Job * Ai),
    sheet w' = sheet w ++ (row_of <$> persisted) ∧
    length persisted ≤ 20 ∧
    NoDup (job_id <$> persisted.*1) ∧
    (∀ job, job ∈ persisted.*1 → (job_id job ∉ already_seen) ∧ job ∈ all_jobs) ∧
    ((persisted = [] ∧ outbox w' = outbox w) ∨
     (persisted ≠ [] ∧ outbox w' = outbox w ++ [build_digest persisted sheet_id])).
Proof.
  intros (relevant_jobs & enriched & Hf & Hsub & Hsheet & _ & Hout)%main_Ok_inv.
  exists enriched. split; [done|].
  apply filter_relevant_jobs_unfold in Hf as (ids & filtered & Hloop & ->).
  apply for_jobs_with_appends in Hloop as (added & Heq & Hadded & Hnd & Hfresh).
  simpl in Heq. subst filtered.
  assert (enriched.*1 `sublist_of` added) as Hsub'
    by (etrans; [exact Hsub | apply sublist_take]).
  split_and!; [| | |done].
  - apply sublist_length in Hsub. rewrite length_fmap, length_take in Hsub. lia.
  - eapply sublist_NoDup; [exact Hnd | by apply fmap_sublist].
  - intros job Hin. pose proof (elem_of_sublist _ _ _ Hin Hsub') as Hin'. split.
    + by apply Hfresh.
    + by eapply elem_of_sublist.
Qed.



(** X20. The digest a run sends shows the postings whose rows the run has
    appended, and only those: its cards are the cards of the persisted
    pairs, in some order, and the count in its subject is their number. *)
Theorem X20_digest_shows_what_was_persisted
    (oracle : list Job → Job → Profile → result Ai)
    (store_appends : list Row → Row → bool) (smtp_delivers : Digest → bool)
    (REMOTE_ONLY : bool) (sheet_id : string) (profile : Profile)
    (already_seen : gset string) (all_jobs : list Job) (w w' : World)
    (digest : Digest) :
  main oracle store_appends smtp_delivers REMOTE_ONLY sheet_id profile
       already_seen all_jobs w = Ok w' →
  outbox w' = outbox w ++ [digest] →
  ∃ persisted : list (Job * Ai),
    sheet w' = sheet w ++ (row_of <$> persisted) ∧
    digest_cards digest ≡ₚ render_card <$> persisted ∧
    digest_count digest = length persisted ∧
    digest_sheet_id digest = sheet_id.
Proof.
  intros (persisted & Hsheet & _ & _ & _ & Hout)%main_Ok_persisted Hdigest.
  exists persisted. split; [done|].
  destruct Hout as [[_ Hsame] | [_ Hsent]].
  - rewrite Hsame in Hdigest. apply (f_equal length) in Hdigest.
    rewrite length_app in Hdigest. simpl in Hdigest. lia.
  - rewrite Hsent in Hdigest. apply app_inv_head in Hdigest. injection Hdigest as <-.
    split_and!; [| by apply build_digest_count | done].
    unfold build_digest. simpl. by rewrite sorted_reverse_perm.
Qed.

Lemma X20_digest_shows_what_was_persisted_witness :
  ∃ persisted : list (Job * Ai),
    [row_of (analyst, package 50); row_of (tokyo, package 50)]
    = sheet empty_world ++ (row_of <$> persisted) ∧
    digest_cards (build_digest [(analyst, package 50); (tokyo, package 50)] "sheet")
    ≡ₚ render_card <$> persisted ∧
    digest_count (build_digest [(analyst, package 50); (tokyo, package 50)] "sheet")
    = length persisted ∧
    digest_sheet_id (build_digest [(analyst, package 50); (tokyo, package 50)] "sheet")
    = "sheet".
Proof.
  apply (X20_digest_shows_what_was_persisted (oracle_failing_on "rok_3") always delivers
           false "sheet" (candidate ["Data Scientist"] []) ∅
           [analyst; gardener; nowhere; tokyo] empty_world
           {| sheet := [row_of (analyst, package 50); row_of (tokyo, package 50)];
              requests := [analyst; nowhere; tokyo];
              outbox := [build_digest [(analyst, package 50); (tokyo, package 50)] "sheet"] |}
           (build_digest [(analyst, package 50); (tokyo, package 50)] "sheet")).
  - by vm_compute.
  - reflexivity.
Defined.

(** X21. [get_already_seen_ids] never raises. A failed read gives the empty
    set. Otherwise a value is in the set exactly when it is the [job_id] of
    some record and is true as a Python value: records without a [job_id],
    or with an empty one or with 0, are passed over without an error, so a
    sheet without that column gives the empty set. *)
Theorem X21_seen_ids_of_the_records
    (rows : list (gmap string Value)) :
  (∀ e, get_already_seen_ids (Raise e) = ∅) ∧
  (∀ v, v ∈ get_already_seen_ids (Ok rows) ↔
        truthy_value (Some v) = true ∧ ∃ r, r ∈ rows ∧ r !! "job_id" = Some v) ∧
  ((∀ r, r ∈ rows → r !! "job_id" = None) → get_already_seen_ids (Ok rows) = ∅).
Proof.
  destruct (seen_ids_of_ok rows) as (ids & Hids & Hmem).
  assert (get_already_seen_ids (Ok rows) = ids) as ->
    by (unfold get_already_seen_ids; simpl; by rewrite Hids).
  split_and!; [done | exact Hmem |].
  intros Hnone. apply set_eq. intros v. rewrite Hmem. split.
  - intros (_ & r & Hr & Hl). rewrite (Hnone r Hr) in Hl. discriminate.
  - by intros ?%not_elem_of_empty.
Qed.

Lemma X21_seen_ids_of_the_records_witness :
  get_already_seen_ids
    (Ok [ {[ "title" := VStr "Data Analyst" ]};
          {[ "title" := VStr "Gardener" ]} ]) = ∅ ∧
  get_already_seen_ids
    (Ok [ {[ "job_id" := VStr "rok_1" ]}; {[ "job_id" := VStr "" ]};
          {[ "job_id" := VNum 0 ]}; {[ "job_id" := VNum 7 ]} ])
  = {[ VStr "rok_1"; VNum 7 ]}.
Proof.
  split; [|by vm_compute].
  apply (X21_seen_ids_of_the_records
           [ {[ "title" := VStr "Data Analyst" ]}; {[ "title" := VStr "Gardener" ]} ]).
  intros r [-> | [-> | Hr%not_elem_of_nil]%elem_of_cons]%elem_of_cons;
    [done | done | done].
Defined.

End StartupExtras.

(** ** What the filter selects, and how a run can fail *)

Module FilterSelect.
Import PyStr PyStrFacts Filter Spec Terms FilterFacts RelevanceFacts FilterMore.

Section LoopSelect.
Variable geo : Job → bool.
Variable need : nat.
Variable REMOTE_ONLY : bool.
Variable profile : Profile.
Variable already_seen : gset string.

Local Abbreviation body := (loop_body_with geo need REMOTE_ONLY profile already_seen).
Local Abbreviation loop := (for_jobs_with geo need REMOTE_ONLY profile already_seen).
Local Abbreviation passes := (passes geo need REMOTE_ONLY profile).

(** After an iteration that returns, the id of a posting that passes and
    was not seen before is in [seen_ids]. *)
Lemma loop_body_with_records st job st' :
  body st job = Ok st' → passes job → job_id job ∉ already_seen →
  job_id job ∈ st'.1.
Proof.
  intros Hb Hp Hs. destruct (decide (job_id job ∈ st.1)) as [Hin | Hnin].
  - destruct (loop_body_with_cases _ _ _ _ _ _ _ _ Hb) as [-> | (-> & _)]; [done|].
    simpl. apply elem_of_union. by right.
  - rewrite (loop_body_with_accepts geo need REMOTE_ONLY profile already_seen
               st job Hs Hnin Hp) in Hb.
    injection Hb as <-. simpl. apply elem_of_union. left. by apply elem_of_singleton.
Qed.

(** [seen_ids] only grows, and by the ids of the postings appended. *)
Lemma for_jobs_with_seen_ids jobs st st' :
  loop jobs st = Ok st' →
  ∃ added, st'.2 = st.2 ++ added ∧
           ∀ id, id ∈ st'.1 ↔ id ∈ st.1 ∨ id ∈ job_id <$> added.
Proof.
  revert st. induction jobs as [|job rest IH]; intros st; simpl.
  - intros [= <-]. exists []. rewrite app_nil_r. split; [done|].
    intros id. split; [by left | intros [H | H%not_elem_of_nil]; done].
  - destruct (body st job) as [st1|e] eqn:Hb; simpl; [|done].
    intros (added & Heq & Hids)%IH.
    destruct (loop_body_with_cases _ _ _ _ _ _ _ _ Hb) as [-> | (-> & _)].
    + by exists added.
    + exists (job :: added). split; [simpl in *; by rewrite Heq, <- app_assoc|].
      intros id. rewrite Hids. simpl.
      rewrite elem_of_union, elem_of_singleton, elem_of_cons. tauto.
Qed.

(** The id of every posting of the input that passes and was not seen
    before is the id of a posting appended. *)
Lemma for_jobs_with_complete jobs st st' job :
  loop jobs st = Ok st' → job ∈ jobs → passes job → job_id job ∉ already_seen →
  job_id job ∈ st'.1.
Proof.
  revert st. induction jobs as [|j rest IH]; intros st; simpl;
    [by intros _ ?%not_elem_of_nil|].
  destruct (body st j) as [st1|e] eqn:Hb; simpl; [|done].
  intros Hrest [-> | Hin]%elem_of_cons Hp Hs; [|by apply (IH st1)].
  pose proof (loop_body_with_records _ _ _ Hb Hp Hs) as Hin1.
  destruct (for_jobs_with_seen_ids _ _ _ Hrest) as (added & _ & Hids).
  apply Hids. by left.
Qed.
End LoopSelect.

End FilterSelect.

Section SelectExtras.
Import PyStr PyStrFacts Filter Pipeline Spec Terms FilterFacts RelevanceFacts.
Import FilterMore FilterSelect RunInvariants Examples.

(** X22. Every posting the filter returns has passed every test: it is a
    remote posting when [REMOTE_ONLY] is set, its lower-cased location
    holds no keyword of [non_us], and the first word of a target role or
    one of the first eight skills is in its text. *)
Theorem X22_filter_returns_only_passing_postings
    (REMOTE_ONLY : bool) (jobs : list Job) (profile : Profile)
    (already_seen : gset string) (returned : list Job) :
  filter_relevant_jobs REMOTE_ONLY jobs profile already_seen = Ok returned →
  Forall (λ job, (REMOTE_ONLY = true → remote job = true) ∧
                 ¬ location_matches non_us job ∧
                 (role_first_word_in_text profile job ∨ skill_in_text profile job))
         returned.
Proof.
  intros (ids & filtered & Hloop & ->)%filter_relevant_jobs_unfold.
  apply for_jobs_with_passing in Hloop as (added & Heq & Hpass).
  simpl in Heq. subst filtered. apply Forall_forall. intros job Hin.
  destruct (Hpass job) as (Hr & Hg & Hrel);
    [eapply elem_of_sublist; [exact Hin | apply sublist_take]|].
  split_and!.
  - intros ->. unfold remote_rejects in Hr. simpl in Hr. by destruct (remote job).
  - intros Hm%geography_rejects_spec. congruence.
  - by apply (relevant_spec profile job true).
Qed.

Lemma X22_filter_returns_only_passing_postings_witness :
  Forall (λ job, (true = true → remote job = true) ∧
                 ¬ location_matches non_us job ∧
                 (role_first_word_in_text (candidate ["Data Scientist"] ["sql"]) job
                  ∨ skill_in_text (candidate ["Data Scientist"] ["sql"]) job))
         [analyst; nowhere; tokyo].
Proof.
  apply (X22_filter_returns_only_passing_postings true
           [analyst; gardener; analyst; nowhere; tokyo]
           (candidate ["Data Scientist"] ["sql"]) ∅).
  by vm_compute.
Defined.

(** X23. Below the cap nothing that passes is lost: when the filter returns
    fewer than 20 postings, every posting of the input that passes the
    remote-only, geography and relevance tests and whose id was not seen
    before has its id among the ids returned. *)
Theorem X23_filter_keeps_every_passing_id_below_the_cap
    (REMOTE_ONLY : bool) (jobs : list Job) (profile : Profile)
    (already_seen : gset string) (returned : list Job) (job : Job) :
  filter_relevant_jobs REMOTE_ONLY jobs profile already_seen = Ok returned →
  length returned < 20 →
  job ∈ jobs →
  job_id job ∉ already_seen →
  remote_rejects REMOTE_ONLY job = false →
  geography_rejects job = false →
  relevant profile job = Ok true →
  job_id job ∈ job_id <$> returned.
Proof.
  intros (ids & filtered & Hloop & ->)%filter_relevant_jobs_unfold
         Hlen Hin Hs Hr Hg Hrel.
  pose proof (for_jobs_with_complete geography_rejects 1 REMOTE_ONLY profile
                already_seen jobs (∅, []) (ids, filtered) job Hloop Hin) as Hid.
  destruct (for_jobs_with_seen_ids _ _ _ _ _ _ _ _ Hloop) as (added & Heq & Hids).
  simpl in Heq, Hids. subst filtered.
  rewrite take_ge; [|rewrite length_take in Hlen; lia].
  destruct (proj1 (Hids (job_id job))) as [H | H]; [by apply Hid | | done].
  by apply not_elem_of_empty in H.
Qed.

Lemma X23_filter_keeps_every_passing_id_below_the_cap_witness :
  job_id analyst ∈ job_id <$> [analyst; nowhere; tokyo].
Proof.
  apply (X23_filter_keeps_every_passing_id_below_the_cap false
           [analyst; gardener; analyst; nowhere; tokyo]
           (candidate ["Data Scientist"] ["sql"]) ∅ [analyst; nowhere; tokyo] analyst).
  - by vm_compute.
  - simpl. lia.
  - apply list_elem_of_here.
  - apply not_elem_of_empty.
  - reflexivity.
  - by vm_compute.
  - by vm_compute.
Defined.


End SelectExtras.
